(** * Birthday reminder bot: date engine, storage listing and reminder tick

    Shallow embedding of [src/database.py] and of the scheduler and the
    add-person dialog of [src/main.py].

    Python integers are unbounded, so they are [Z].  A [datetime.date] is a
    record of three integers; the constructor [date(y, m, d)] raises
    [ValueError] on an out-of-range field, which is [None] here.  The
    process-wide [active_users] set is a [gset Z]; the [user_reminders]
    dict, whose iteration order is its insertion order, is an association
    list.  One pass of the scheduler is taken as a whole: no handler runs
    in the middle of it.  An integer handed to SQLite as a parameter has
    to fit in 64 bits; one that does not makes the statement raise. *)

From Stdlib Require Import ZArith Lia Bool List String.
From stdpp Require Import base option list sorting gmap.

Local Open Scope Z_scope.

(** ** The part of Python's [datetime] the program relies on *)

Module PyDate.

Definition MINYEAR : Z := 1.
Definition MAXYEAR : Z := 9999.

Record date := mkdate { year : Z; month : Z; day : Z }.

(** [_is_leap]: [year % 4 == 0 and (year % 100 != 0 or year % 400 == 0)]. *)
Definition is_leap (y : Z) : bool :=
  (y mod 4 =? 0) && (negb (y mod 100 =? 0) || (y mod 400 =? 0)).

(** The table [_DAYS_IN_MONTH], indexed from 1. *)
Definition DAYS_IN_MONTH (m : Z) : Z :=
  match m with
  | 1 => 31 | 2 => 28 | 3 => 31 | 4 => 30 | 5 => 31 | 6 => 30
  | 7 => 31 | 8 => 31 | 9 => 30 | 10 => 31 | 11 => 30 | 12 => 31
  | _ => -1
  end.

(** The table [_DAYS_BEFORE_MONTH], indexed from 1. *)
Definition DAYS_BEFORE_MONTH (m : Z) : Z :=
  match m with
  | 1 => 0 | 2 => 31 | 3 => 59 | 4 => 90 | 5 => 120 | 6 => 151
  | 7 => 181 | 8 => 212 | 9 => 243 | 10 => 273 | 11 => 304 | 12 => 334
  | _ => -1
  end.

Definition days_in_month (y m : Z) : Z :=
  if (m =? 2) && is_leap y then 29 else DAYS_IN_MONTH m.

Definition days_before_month (y m : Z) : Z :=
  DAYS_BEFORE_MONTH m + (if (2 <? m) && is_leap y then 1 else 0).

(** [_days_before_year]: floor division, as Python's [//]. *)
Definition days_before_year (y : Z) : Z :=
  let p := y - 1 in p * 365 + p / 4 - p / 100 + p / 400.

Definition ymd2ord (y m d : Z) : Z :=
  days_before_year y + days_before_month y m + d.

(** [_check_date_fields]: the three range checks of the constructor. *)
Definition check_date_fields (y m d : Z) : bool :=
  (MINYEAR <=? y) && (y <=? MAXYEAR) &&
  (1 <=? m) && (m <=? 12) &&
  (1 <=? d) && (d <=? days_in_month y m).

(** [date(y, m, d)]; [None] stands for the [ValueError]. *)
Definition date_new (y m d : Z) : option date :=
  if check_date_fields y m d then Some (mkdate y m d) else None.

(** Every [date] object that exists went through the constructor. *)
Definition valid_date (d : date) : Prop :=
  check_date_fields (year d) (month d) (day d) = true.

Definition toordinal (d : date) : Z := ymd2ord (year d) (month d) (day d).

(** Tuple comparison [(a1, a2) < (b1, b2)]. *)
Definition pair_ltb (a b : Z * Z) : bool :=
  (a.1 <? b.1) || ((a.1 =? b.1) && (a.2 <? b.2)).

(** [date.__lt__] and [date.__eq__] compare the (year, month, day) triples. *)
Definition date_ltb (a b : date) : bool :=
  (year a <? year b) ||
  ((year a =? year b) && pair_ltb (month a, day a) (month b, day b)).

Definition date_eqb (a b : date) : bool :=
  (year a =? year b) && (month a =? month b) && (day a =? day b).

Definition date_leb (a b : date) : bool := negb (date_ltb b a).

(** [(a - b).days]: the difference of the two proleptic ordinals. *)
Definition sub_days (a b : date) : Z := toordinal a - toordinal b.

(** The calendar day after [d]. *)
Definition tomorrow (d : date) : date :=
  if day d <? days_in_month (year d) (month d)
  then mkdate (year d) (month d) (day d + 1)
  else if month d <? 12
       then mkdate (year d) (month d + 1) 1
       else mkdate (year d + 1) 1 1.

(** Month and day in range, whatever the year. *)
Definition wf_date (d : date) : Prop :=
  1 <= month d <= 12 /\ 1 <= day d <= days_in_month (year d) (month d).

End PyDate.
Export PyDate.

(** ** [database.py]: the two static methods of the date engine *)

(** [BirthdayDatabase.calculate_age]. *)
Definition calculate_age (birthday today : date) : Z :=
  let age := year today - year birthday in
  if pair_ltb (month today, day today) (month birthday, day birthday)
  then age - 1
  else age.

(** [BirthdayDatabase.days_until_birthday]; [None] when one of the two
    constructor calls raises. *)
Definition days_until_birthday (birthday today : date) : option Z :=
  next_birthday ← date_new (year today) (month birthday) (day birthday);
  next_birthday ← (if date_ltb next_birthday today
                   then date_new (year today + 1) (month birthday) (day birthday)
                   else Some next_birthday);
  if date_eqb next_birthday today
  then Some 0
  else Some (sub_days next_birthday today).

(** ** [database.py]: the table and its listing *)

(** One row of the [birthdays] table.  The [birthday_date] column holds
    the ISO text written by [add_person] and parsed back by
    [get_all_people]; the row carries the date that text denotes. *)
Module Row.
Record t := mk { id : Z; name : string; birthday_date : date; user_id : Z }.
End Row.

(** The dict built for each row by [get_all_people]. *)
Module Person.
Record t := mk {
  id : Z; name : string; birthday_date : date; user_id : Z;
  age : Z; days_until : Z }.
End Person.

(** The table in rowid order, and the AUTOINCREMENT counter (the largest
    id handed out so far). *)
Record BirthdayDatabase := mkdb { rows : list Row.t; autoincrement : Z }.

(** What [sqlite3] binds to an INTEGER: a signed 64-bit value.  Binding
    any other Python int raises [OverflowError]. *)
Definition fits_int64 (z : Z) : bool := (- 2 ^ 63 <=? z) && (z <? 2 ^ 63).

(** [add_person]: the INSERT fails on a NULL name (the column is NOT NULL)
    and on a [user_id] that cannot be bound; the [except] clause turns the
    failure into [False], with nothing inserted. *)
Definition add_person (db : BirthdayDatabase) (name : option string)
    (birthday_date : date) (user_id : Z) : BirthdayDatabase * bool :=
  match name with
  | Some n =>
      if fits_int64 user_id
      then
        let i := autoincrement db + 1 in
        (mkdb (rows db ++ [Row.mk i n birthday_date user_id]) i, true)
      else (db, false)
  | None => (db, false)
  end.

(** [ORDER BY name]: byte-wise comparison of the text, ties left in rowid
    order. *)
Definition name_leb (a b : Row.t) : bool := String.leb (Row.name a) (Row.name b).

Fixpoint insert_by_name (r : Row.t) (l : list Row.t) : list Row.t :=
  match l with
  | [] => [r]
  | x :: l' => if name_leb r x then r :: l else x :: insert_by_name r l'
  end.

Definition order_by_name (l : list Row.t) : list Row.t :=
  foldr insert_by_name [] l.

(** Python's truth value of an [Optional[int]]: [None] and [0] are false. *)
Definition truthy (user_id : option Z) : bool :=
  match user_id with
  | Some u => negb (u =? 0)
  | None => false
  end.

(** The two SELECT statements of [get_all_people]. *)
Definition select_birthdays (db : BirthdayDatabase) (user_id : option Z)
    : list Row.t :=
  if truthy user_id
  then order_by_name (filter (fun r => Some (Row.user_id r) = user_id) (rows db))
  else order_by_name (rows db).

(** The body of the [for row in rows] loop. *)
Definition person_of_row (today : date) (row : Row.t) : option Person.t :=
  let birthday_date := Row.birthday_date row in
  let age := calculate_age birthday_date today in
  days_until ← days_until_birthday birthday_date today;
  Some (Person.mk (Row.id row) (Row.name row) birthday_date
          (Row.user_id row) age days_until).

(** [cursor.execute]: the filtered SELECT binds [user_id] and raises when
    it cannot be bound; the unfiltered one binds nothing. *)
Definition execute_select (db : BirthdayDatabase) (user_id : option Z)
    : option (list Row.t) :=
  match user_id with
  | Some u =>
      if truthy user_id && negb (fits_int64 u)
      then None
      else Some (select_birthdays db user_id)
  | None => Some (select_birthdays db user_id)
  end.

(** [get_all_people]; [today] is the value of [date.today()].  [None] when
    the query or the loop raises. *)
Definition get_all_people (db : BirthdayDatabase) (user_id : option Z)
    (today : date) : option (list Person.t) :=
  rows ← execute_select db user_id;
  mapM (person_of_row today) rows.

(** [get_people_with_birthday_in_days]. *)
Definition get_people_with_birthday_in_days (db : BirthdayDatabase)
    (days : Z) (today : date) : option (list Person.t) :=
  people ← get_all_people db None today;
  Some (filter (fun person => Person.days_until person = days) people).

(** ** [main.py]: the second step of the add-person dialog *)

Inductive AddPersonStates := waiting_for_name | waiting_for_date.

(** One user's FSM context: the current state and the [name] key of the
    data dict. *)
Record FSMContext := mkfsm {
  fsm_state : option AddPersonStates;
  fsm_name : option string }.

(** The texts [process_date] answers with. *)
Inductive answer :=
| AnswerFutureDate
| AnswerAdded (name : option string) (birthday_date : date) (age days_until : Z)
| AnswerAddFailed
| AnswerBadFormat.

Record bot_state := mkbot {
  db : BirthdayDatabase;
  active_users : gset Z;
  storage : gmap Z FSMContext;
  answers : list (Z * answer) }.

Section Dialog.

(** [datetime.strptime(text.strip(), '%d.%m.%Y').date()], [None] for the
    [ValueError] of an unparseable text. *)
Variable strptime_dmy : string -> option date.

Definition reply (user_id : Z) (a : answer) (st : bot_state) : bot_state :=
  mkbot (db st) (active_users st) (storage st) (answers st ++ [(user_id, a)]).

(** [state.clear()]. *)
Definition clear (user_id : Z) (st : bot_state) : bot_state :=
  mkbot (db st) (active_users st)
    (<[user_id := mkfsm None None]> (storage st)) (answers st).

(** [process_date]; [today] is the value of [date.today()]. *)
Definition process_date (today : date) (user_id : Z) (text : string)
    (st : bot_state) : bot_state :=
  let st := mkbot (db st) ({[user_id]} ∪ active_users st)
              (storage st) (answers st) in
  let name := storage st !! user_id ≫= fsm_name in
  match strptime_dmy text with
  | None => reply user_id AnswerBadFormat st
  | Some birthday_date =>
      if date_ltb today birthday_date
      then reply user_id AnswerFutureDate st
      else
        let '(db', ok) := add_person (db st) name birthday_date user_id in
        let st := mkbot db' (active_users st) (storage st) (answers st) in
        if ok then
          let age := calculate_age birthday_date today in
          match days_until_birthday birthday_date today with
          | Some days_until =>
              clear user_id
                (reply user_id
                   (AnswerAdded name birthday_date age days_until) st)
          | None =>
              (* the ValueError lands in the handler's own except clause *)
              reply user_id AnswerBadFormat st
          end
        else clear user_id (reply user_id AnswerAddFailed st)
  end.

End Dialog.

(** ** [main.py]: one pass of [send_birthday_reminders] *)

(** The values interpolated into the reminder text. *)
Record reminder := mkreminder {
  rem_name : string;
  rem_birthday_date : date;
  rem_turns : Z }.

Definition reminder_text (person : Person.t) : reminder :=
  mkreminder (Person.name person) (Person.birthday_date person)
    (Person.age person + 1).

(** [user_reminders[user_id].append(person)], creating the entry at the end
    of the dict when the key is new. *)
Fixpoint dict_append (d : list (Z * list Person.t)) (k : Z) (person : Person.t)
    : list (Z * list Person.t) :=
  match d with
  | [] => [(k, [person])]
  | (k', persons) :: d' =>
      if k' =? k then (k', persons ++ [person]) :: d'
      else (k', persons) :: dict_append d' k person
  end.

Definition group_by_user (people : list Person.t) : list (Z * list Person.t) :=
  foldl (fun d person => dict_append d (Person.user_id person) person) [] people.

(** A delivery attempt: the recipient, the person announced, and whether
    [bot.send_message] returned ([true]) or raised ([false]). *)
Definition attempt : Type := Z * Person.t * bool.

Section Scheduler.

(** The outside world of the Telegram API, and [bot.send_message] as a
    transition on it. *)
Variable World : Type.
Variable send_message : World -> Z -> reminder -> World * bool.

Record tick_state := mktick {
  ts_active : gset Z;
  ts_world : World;
  ts_log : list attempt }.

(** The body of [for person in persons]. *)
Definition notify (user_id : Z) (s : tick_state) (person : Person.t)
    : tick_state :=
  let '(w, ok) := send_message (ts_world s) user_id (reminder_text person) in
  mktick (if ok then ts_active s else ts_active s ∖ {[user_id]})
    w (ts_log s ++ [(user_id, person, ok)]).

(** The body of [for user_id, persons in user_reminders.items()]. *)
Definition notify_group (s : tick_state) (g : Z * list Person.t)
    : tick_state :=
  if decide (g.1 ∈ ts_active s) then foldl (notify g.1) s g.2 else s.

(** The [try] block of the loop body, up to the sleep.  An exception of
    the fetch is caught by the outer [except]: nothing is sent. *)
Definition send_birthday_reminders_tick (db : BirthdayDatabase)
    (today : date) (active : gset Z) (w : World) : tick_state :=
  match get_people_with_birthday_in_days db 1 today with
  | None => mktick active w []
  | Some [] => mktick active w []
  | Some people =>
      foldl notify_group (mktick active w []) (group_by_user people)
  end.

End Scheduler.

Arguments mktick {World}.
Arguments ts_active {World}.
Arguments ts_world {World}.
Arguments ts_log {World}.
Arguments notify {World}.
Arguments notify_group {World}.
Arguments send_birthday_reminders_tick {World}.

(** The people attempted for [u], in order. *)
Definition attempted_for (u : Z) (log : list attempt) : list Person.t :=
  (fun a : attempt => a.1.2) <$> filter (fun a : attempt => a.1.1 = u) log.

(** Whether some attempt for [u] failed. *)
Definition failed_for (u : Z) (log : list attempt) : Prop :=
  exists person, (u, person, false) ∈ log.

(** The reading of "no further people of an owner are attempted after a
    failed delivery to that owner". *)
Definition stops_after_failure (log : list attempt) : Prop :=
  forall (i j : nat) u person person' ok,
    (i < j)%nat ->
    log !! i = Some (u, person, false) ->
    log !! j = Some (u, person', ok) ->
    False.

(** ** [database.py]: deletion and the owners with a birthday today *)

(** [delete_person]: [DELETE ... WHERE id = ?].  An id that is not in the
    table deletes nothing and the method still returns [True]; the
    AUTOINCREMENT counter is not wound back.  An id that cannot be bound
    raises inside the [try]: the method returns [False] and the table is as
    it was. *)
Definition delete_person (db : BirthdayDatabase) (person_id : Z)
    : BirthdayDatabase * bool :=
  if fits_int64 person_id
  then
    (mkdb (filter (fun r => Row.id r <> person_id) (rows db))
       (autoincrement db),
     true)
  else (db, false).

(** [get_user_ids_with_birthdays_today]: [list(set(...))]; the order of the
    result is that of the set, which the program does not control. *)
Definition get_user_ids_with_birthdays_today (db : BirthdayDatabase)
    (today : date) : option (list Z) :=
  people ← get_people_with_birthday_in_days db 0 today;
  Some (elements (list_to_set (Person.user_id <$> people) : gset Z)).

(** ** [main.py]: the handlers *)

(** The texts the other handlers answer with; a list text and a delete
    keyboard carry the people they are built from. *)
Inductive screen :=
| ScreenWelcome
| ScreenHelp
| ScreenAskName
| ScreenEmptyList
| ScreenList (people : list Person.t)
| ScreenNothingToDelete
| ScreenChooseDelete (people : list Person.t)
| ScreenDeleted (name : string)
| ScreenDeleteError
| ScreenCancelled
| ScreenNameTooShort
| ScreenAskDate (name : string)
| ScreenUseButtons.

(** How the message filters classify an incoming text message. *)
Inductive message_kind := CommandStart | CommandHelp | PlainText.

(** The callback data of a pressed button; [CallbackDelete i] is
    [delete_<i>], with [i] the integer the handler parses out of it. *)
Inductive callback_data :=
| CallbackAddPerson
| CallbackShowList
| CallbackDeletePerson
| CallbackDelete (person_id : Z)
| CallbackCancel
| CallbackHelp.

Inductive event :=
| Message (kind : message_kind) (text : string)
| Callback (data : callback_data).

(** [active_users.add(user_id)]. *)
Definition activate (user_id : Z) (st : bot_state) : bot_state :=
  mkbot (db st) ({[user_id]} ∪ active_users st) (storage st) (answers st).

(** A user's FSM context; a user the storage has not seen has no state and
    no data. *)
Definition get_context (user_id : Z) (st : bot_state) : FSMContext :=
  default (mkfsm None None) (storage st !! user_id).

(** [state.set_state(s)]. *)
Definition set_state (user_id : Z) (s : option AddPersonStates)
    (st : bot_state) : bot_state :=
  mkbot (db st) (active_users st)
    (<[user_id := mkfsm s (fsm_name (get_context user_id st))]> (storage st))
    (answers st).

(** [state.update_data(name=name)]. *)
Definition update_data (user_id : Z) (name : string) (st : bot_state)
    : bot_state :=
  mkbot (db st) (active_users st)
    (<[user_id := mkfsm (fsm_state (get_context user_id st)) (Some name)]>
       (storage st))
    (answers st).

(** [cmd_start]. *)
Definition cmd_start (user_id : Z) (st : bot_state) : bot_state * option screen :=
  (activate user_id st, Some ScreenWelcome).

(** [cmd_help]. *)
Definition cmd_help (user_id : Z) (st : bot_state) : bot_state * option screen :=
  (activate user_id st, Some ScreenHelp).

(** [handle_other_messages]. *)
Definition handle_other_messages (user_id : Z) (st : bot_state)
    : bot_state * option screen :=
  (activate user_id st, Some ScreenUseButtons).

(** [callback_add_person]. *)
Definition callback_add_person (user_id : Z) (st : bot_state)
    : bot_state * option screen :=
  (set_state user_id (Some waiting_for_name) (activate user_id st),
   Some ScreenAskName).

(** [callback_show_list]; no answer when the listing raises. *)
Definition callback_show_list (today : date) (user_id : Z) (st : bot_state)
    : bot_state * option screen :=
  let st := activate user_id st in
  match get_all_people (db st) (Some user_id) today with
  | None => (st, None)
  | Some [] => (st, Some ScreenEmptyList)
  | Some people => (st, Some (ScreenList people))
  end.

(** [callback_delete_person]; no answer when the listing raises. *)
Definition callback_delete_person (today : date) (user_id : Z)
    (st : bot_state) : bot_state * option screen :=
  let st := activate user_id st in
  match get_all_people (db st) (Some user_id) today with
  | None => (st, None)
  | Some [] => (st, Some ScreenNothingToDelete)
  | Some people => (st, Some (ScreenChooseDelete people))
  end.

(** [callback_confirm_delete]: the person is looked up in the listing of
    the user who pressed the button, and deleted only when found there.
    This handler does not touch [active_users]. *)
Definition callback_confirm_delete (today : date) (user_id person_id : Z)
    (st : bot_state) : bot_state * option screen :=
  match get_all_people (db st) (Some user_id) today with
  | None => (st, None)
  | Some people =>
      match head (filter (fun p => Person.id p = person_id) people) with
      | Some person =>
          let '(db', ok) := delete_person (db st) person_id in
          if ok
          then (mkbot db' (active_users st) (storage st) (answers st),
                Some (ScreenDeleted (Person.name person)))
          else (mkbot db' (active_users st) (storage st) (answers st),
                Some ScreenDeleteError)
      | None => (st, Some ScreenDeleteError)
      end
  end.

(** [callback_cancel]. *)
Definition callback_cancel (st : bot_state) : bot_state * option screen :=
  (st, Some ScreenCancelled).

(** [callback_help]. *)
Definition callback_help (st : bot_state) : bot_state * option screen :=
  (st, Some ScreenHelp).

Section Handlers.

(** [str.strip] and [len] on the text of a message. *)
Variable strip : string -> string.
Variable len : string -> Z.
Variable strptime_dmy : string -> option date.

(** [process_name]. *)
Definition process_name (user_id : Z) (text : string) (st : bot_state)
    : bot_state * option screen :=
  let st := activate user_id st in
  let name := strip text in
  if String.eqb name EmptyString || (len name <? 2)
  then (st, Some ScreenNameTooShort)
  else
    (set_state user_id (Some waiting_for_date) (update_data user_id name st),
     Some (ScreenAskDate name)).

(** The message handlers in registration order: the two commands, the two
    dialog states, then the catch-all.  The answer of [process_date] is
    logged in the state. *)
Definition on_message (today : date) (user_id : Z) (kind : message_kind)
    (text : string) (st : bot_state) : bot_state * option screen :=
  match kind with
  | CommandStart => cmd_start user_id st
  | CommandHelp => cmd_help user_id st
  | PlainText =>
      match fsm_state (get_context user_id st) with
      | Some waiting_for_name => process_name user_id text st
      | Some waiting_for_date =>
          (process_date strptime_dmy today user_id text st, None)
      | None => handle_other_messages user_id st
      end
  end.

(** The callback handlers. *)
Definition on_callback (today : date) (user_id : Z) (data : callback_data)
    (st : bot_state) : bot_state * option screen :=
  match data with
  | CallbackAddPerson => callback_add_person user_id st
  | CallbackShowList => callback_show_list today user_id st
  | CallbackDeletePerson => callback_delete_person today user_id st
  | CallbackDelete person_id =>
      callback_confirm_delete today user_id person_id st
  | CallbackCancel => callback_cancel st
  | CallbackHelp => callback_help st
  end.

(** One update from [user_id], handled to the end. *)
Definition handle (today : date) (user_id : Z) (e : event) (st : bot_state)
    : bot_state * option screen :=
  match e with
  | Message kind text => on_message today user_id kind text st
  | Callback data => on_callback today user_id data st
  end.

End Handlers.

(** Whether the handler of an update runs [active_users.add]: all the
    message handlers do, and of the callback handlers those of the add,
    list and delete buttons. *)
Definition marks_sender (e : event) : bool :=
  match e with
  | Message _ _ => true
  | Callback CallbackAddPerson => true
  | Callback CallbackShowList => true
  | Callback CallbackDeletePerson => true
  | Callback (CallbackDelete _) => false
  | Callback CallbackCancel => false
  | Callback CallbackHelp => false
  end.

(** The calls of [bot.send_message] behind a log: each entry is one call,
    on the world the call before it left, with the reminder text of the
    person of the entry; the entry holds what the call returned, and a
    call that raised is followed at once by the [discard] of its
    recipient. *)
Inductive pass_trace {World : Type}
    (send_message : World -> Z -> reminder -> World * bool)
    : gset Z -> World -> list attempt -> gset Z -> World -> Prop :=
| pass_done active w : pass_trace send_message active w [] active w
| pass_sent active w user_id person w' log active'' w'' :
    send_message w user_id (reminder_text person) = (w', true) ->
    pass_trace send_message active w' log active'' w'' ->
    pass_trace send_message active w ((user_id, person, true) :: log)
      active'' w''
| pass_failed active w user_id person w' log active'' w'' :
    send_message w user_id (reminder_text person) = (w', false) ->
    pass_trace send_message (active ∖ {[user_id]}) w' log active'' w'' ->
    pass_trace send_message active w ((user_id, person, false) :: log)
      active'' w''.

(** What a loop of the pass adds to the log, with the calls behind it. *)
Definition traces {World : Type}
    (send_message : World -> Z -> reminder -> World * bool)
    (s s' : tick_state World) : Prop :=
  exists new,
    ts_log s' = ts_log s ++ new /\
    pass_trace send_message (ts_active s) (ts_world s) new
      (ts_active s') (ts_world s').

(** Every stored id is one SQLite can hold. *)
Definition ids_storable (db : BirthdayDatabase) : Prop :=
  Forall (fun r => fits_int64 (Row.id r) = true) (rows db).

(** The rows an owner holds. *)
Definition rows_of (u : Z) (db : BirthdayDatabase) : list Row.t :=
  filter (fun r => Row.user_id r = u) (rows db).

(** The ids of the table are distinct and none exceeds the counter. *)
Definition ids_fresh (db : BirthdayDatabase) : Prop :=
  NoDup (Row.id <$> rows db) /\
  Forall (fun r => Row.id r <= autoincrement db) (rows db).

(** The people of [u] a pass on [today] is to announce; none when the
    fetch raises. *)
Definition due_for (u : Z) (db : BirthdayDatabase) (today : date)
    : list Person.t :=
  match get_people_with_birthday_in_days db 1 today with
  | Some people => filter (fun p => Person.user_id p = u) people
  | None => []
  end.

(** The dialog is consistent: a user asked for the date has a name on
    file, not empty and of length at least 2. *)
Definition dialog_ok (len : string -> Z) (st : bot_state) : Prop :=
  forall u ctx,
    storage st !! u = Some ctx ->
    fsm_state ctx = Some waiting_for_date ->
    exists n, fsm_name ctx = Some n /\ n <> EmptyString /\ 2 <= len n.

(** A birth date that exists in every year: any date but a 29th of
    February. *)
Definition every_year (b : date) : Prop :=
  valid_date b /\ ~ (month b = 2 /\ day b = 29).

(** ** Notions used to state the contracts *)

(** The lexicographic order on (month, day) pairs, written out. *)
Definition month_day_lt (a b : date) : Prop :=
  month a < month b \/ (month a = month b /\ day a < day b).

(** The order of [ORDER BY name], as a relation. *)
Definition name_le (a b : Row.t) : Prop := name_leb a b = true.

(** The people filed under the key [u] of a dict. *)
Fixpoint group_of (u : Z) (d : list (Z * list Person.t)) : list Person.t :=
  match d with
  | [] => []
  | (k, persons) :: d' =>
      if decide (k = u) then persons ++ group_of u d' else group_of u d'
  end.

(** What a loop of the pass adds to the log, and what it leaves of the
    reachability set. *)
Definition extends {World : Type} (s s' : tick_state World)
    (new : list attempt) : Prop :=
  ts_log s' = ts_log s ++ new /\
  forall v, v ∈ ts_active s' <-> v ∈ ts_active s /\ ~ failed_for v new.

(** A table with two people of owner 7, both born on a 15th of March,
    and a Telegram API that refuses every message. *)
Definition two_people_table : BirthdayDatabase :=
  mkdb [Row.mk 1 "Ann"%string (mkdate 1990 3 15) 7;
        Row.mk 2 "Bob"%string (mkdate 1985 3 15) 7] 2.

Definition always_fails (w : unit) (_ : Z) (_ : reminder) : unit * bool :=
  (w, false).

(** A table with one person, and a Telegram API that takes every message. *)
Definition one_person_table : BirthdayDatabase :=
  mkdb [Row.mk 1 "Ann"%string (mkdate 1990 3 15) 7] 1.

Definition always_delivers (w : unit) (_ : Z) (_ : reminder) : unit * bool :=
  (w, true).

(** ** Facts about the calendar *)

(** Case analysis on a month known to lie in 1..12. *)
Ltac month_cases m :=
  let H := fresh "Hcase" in
  assert (m = 1 \/ m = 2 \/ m = 3 \/ m = 4 \/ m = 5 \/ m = 6 \/
          m = 7 \/ m = 8 \/ m = 9 \/ m = 10 \/ m = 11 \/ m = 12) as H by lia;
  destruct H as [H|[H|[H|[H|[H|[H|[H|[H|[H|[H|[H|H]]]]]]]]]]]; subst m.

Section CalendarFacts.

Lemma days_before_year_succ y :
  days_before_year (y + 1) =
  days_before_year y + (if is_leap y then 366 else 365).
Proof.
  unfold days_before_year, is_leap.
  replace (y + 1 - 1) with y by lia.
  destruct (Z.eqb_spec (y mod 4) 0), (Z.eqb_spec (y mod 100) 0),
    (Z.eqb_spec (y mod 400) 0); simpl;
    Z.div_mod_to_equations; lia.
Qed.

Lemma days_before_year_mono a b :
  a <= b -> days_before_year a + 365 * (b - a) <= days_before_year b.
Proof.
  unfold days_before_year. intros Hab.
  Z.div_mod_to_equations. lia.
Qed.

Lemma day_of_year_bounds y m d :
  1 <= m <= 12 -> 1 <= d <= days_in_month y m ->
  1 <= days_before_month y m + d <= (if is_leap y then 366 else 365).
Proof.
  unfold days_before_month, days_in_month. intros Hm Hd.
  month_cases m; destruct (is_leap y); simpl in *; lia.
Qed.

Lemma day_of_year_lt y m1 d1 m2 d2 :
  1 <= m1 <= 12 -> 1 <= d1 <= days_in_month y m1 ->
  1 <= m2 <= 12 -> 1 <= d2 <= days_in_month y m2 ->
  pair_ltb (m1, d1) (m2, d2) = true ->
  days_before_month y m1 + d1 < days_before_month y m2 + d2.
Proof.
  unfold days_before_month, days_in_month, pair_ltb. simpl.
  intros Hm1 Hd1 Hm2 Hd2 Hlt.
  apply orb_true_iff in Hlt as [Hlt | Hlt].
  - apply Z.ltb_lt in Hlt.
    month_cases m1; month_cases m2; try lia;
      destruct (is_leap y); simpl in *; lia.
  - apply andb_true_iff in Hlt as [He Hlt].
    apply Z.eqb_eq in He. apply Z.ltb_lt in Hlt. subst m2. lia.
Qed.

Lemma toordinal_lt a b :
  wf_date a -> wf_date b -> date_ltb a b = true ->
  toordinal a < toordinal b.
Proof.
  destruct a as [ya ma da], b as [yb mb db].
  unfold wf_date, date_ltb, toordinal, ymd2ord. simpl.
  intros [Hma Hda] [Hmb Hdb] Hlt.
  apply orb_true_iff in Hlt as [Hlt | Hlt].
  - apply Z.ltb_lt in Hlt.
    pose proof (day_of_year_bounds ya ma da Hma Hda) as Ba.
    pose proof (day_of_year_bounds yb mb db Hmb Hdb) as Bb.
    pose proof (days_before_year_succ ya) as Hs.
    pose proof (days_before_year_mono (ya + 1) yb ltac:(lia)) as Hmono.
    destruct (is_leap ya); lia.
  - apply andb_true_iff in Hlt as [He Hlt].
    apply Z.eqb_eq in He. subst yb.
    pose proof (day_of_year_lt ya ma da mb db Hma Hda Hmb Hdb Hlt). lia.
Qed.

Lemma date_trichotomy a b :
  date_ltb a b = true \/ a = b \/ date_ltb b a = true.
Proof.
  destruct a as [ya ma da], b as [yb mb db].
  unfold date_ltb, pair_ltb. simpl.
  destruct (Z.ltb_spec ya yb), (Z.ltb_spec yb ya), (Z.eqb_spec ya yb),
    (Z.eqb_spec yb ya); simpl; auto; try lia.
  destruct (Z.ltb_spec ma mb), (Z.ltb_spec mb ma), (Z.eqb_spec ma mb),
    (Z.eqb_spec mb ma); simpl; auto; try lia.
  destruct (Z.ltb_spec da db), (Z.ltb_spec db da); simpl; auto; try lia.
  right; left. f_equal; lia.
Qed.

Lemma toordinal_inj a b :
  wf_date a -> wf_date b -> toordinal a = toordinal b -> a = b.
Proof.
  intros Ha Hb Heq.
  destruct (date_trichotomy a b) as [Hlt | [He | Hgt]]; [| exact He |].
  - pose proof (toordinal_lt a b Ha Hb Hlt). lia.
  - pose proof (toordinal_lt b a Hb Ha Hgt). lia.
Qed.

Lemma date_eqb_eq a b : date_eqb a b = true <-> a = b.
Proof.
  destruct a as [ya ma da], b as [yb mb db]. unfold date_eqb. simpl.
  rewrite !andb_true_iff, !Z.eqb_eq. split.
  - intros [[-> ->] ->]. reflexivity.
  - intros [= -> -> ->]. auto.
Qed.

Lemma date_ltb_irrefl a : date_ltb a a = false.
Proof.
  unfold date_ltb, pair_ltb. simpl.
  rewrite !Z.ltb_irrefl. simpl. rewrite !andb_false_r. reflexivity.
Qed.

Lemma tomorrow_wf d : wf_date d -> wf_date (tomorrow d).
Proof.
  destruct d as [y m d]. unfold wf_date, tomorrow. simpl. intros [Hm Hd].
  destruct (Z.ltb_spec d (days_in_month y m)); simpl; [lia |].
  destruct (Z.ltb_spec m 12); simpl.
  - split; [lia |]. unfold days_in_month.
    month_cases m; destruct (is_leap y); simpl; lia.
  - unfold days_in_month. simpl. lia.
Qed.

Lemma toordinal_tomorrow d :
  wf_date d -> toordinal (tomorrow d) = toordinal d + 1.
Proof.
  destruct d as [y m d]. unfold wf_date, tomorrow, toordinal, ymd2ord.
  simpl. intros [Hm Hd].
  destruct (Z.ltb_spec d (days_in_month y m)); simpl; [lia |].
  assert (d = days_in_month y m) as -> by lia.
  destruct (Z.ltb_spec m 12); simpl.
  - unfold days_before_month, days_in_month.
    month_cases m; destruct (is_leap y); simpl; lia.
  - assert (m = 12) as -> by lia.
    rewrite days_before_year_succ.
    unfold days_before_month, days_in_month. simpl.
    destruct (is_leap y), (is_leap (y + 1)); simpl; lia.
Qed.

End CalendarFacts.

(** ** Facts about the date engine *)

Section DateEngineFacts.

Lemma valid_date_wf d : valid_date d -> wf_date d.
Proof.
  unfold valid_date, check_date_fields, wf_date.
  rewrite !andb_true_iff, !Z.leb_le. lia.
Qed.

Lemma valid_date_year d : valid_date d -> MINYEAR <= year d <= MAXYEAR.
Proof.
  unfold valid_date, check_date_fields.
  rewrite !andb_true_iff, !Z.leb_le. lia.
Qed.

Lemma date_new_Some y m d c :
  date_new y m d = Some c -> c = mkdate y m d /\ valid_date c.
Proof.
  unfold date_new, valid_date.
  destruct (check_date_fields y m d) eqn:E; [| discriminate].
  intros [= <-]. auto.
Qed.

Lemma date_new_valid d : valid_date d -> date_new (year d) (month d) (day d) = Some d.
Proof.
  unfold date_new, valid_date. intros ->. destruct d; reflexivity.
Qed.

Lemma sub_days_self d : sub_days d d = 0.
Proof. unfold sub_days. lia. Qed.

(** The two ways [days_until_birthday] returns. *)
Lemma days_until_birthday_inv b t n :
  days_until_birthday b t = Some n ->
  let c := mkdate (year t) (month b) (day b) in
  let c' := mkdate (year t + 1) (month b) (day b) in
  valid_date c /\
  ((date_ltb c t = false /\ n = sub_days c t) \/
   (date_ltb c t = true /\ valid_date c' /\ n = sub_days c' t)).
Proof.
  intros H c c'. unfold days_until_birthday in H.
  destruct (date_new (year t) (month b) (day b)) as [x|] eqn:E1;
    simpl in H; [| discriminate].
  apply date_new_Some in E1 as [-> Hc]. fold c in H, Hc |- *.
  split; [exact Hc |].
  destruct (date_ltb c t) eqn:Elt.
  - right. split; [reflexivity |].
    destruct (date_new (year t + 1) (month b) (day b)) as [x|] eqn:E2;
      simpl in H; [| discriminate].
    apply date_new_Some in E2 as [-> Hc']. fold c' in H, Hc' |- *.
    split; [exact Hc' |].
    destruct (date_eqb c' t) eqn:Eeq.
    + apply date_eqb_eq in Eeq. rewrite Eeq, sub_days_self. congruence.
    + congruence.
  - left. split; [reflexivity |]. simpl in H.
    destruct (date_eqb c t) eqn:Eeq.
    + apply date_eqb_eq in Eeq. rewrite Eeq, sub_days_self. congruence.
    + congruence.
Qed.

(** Conversely, when both constructor calls go through the function
    returns the ordinal difference. *)
Lemma days_until_birthday_same_year b t :
  let c := mkdate (year t) (month b) (day b) in
  valid_date c -> date_ltb c t = false ->
  days_until_birthday b t = Some (sub_days c t).
Proof.
  intros c Hc Hlt. unfold days_until_birthday.
  pose proof (date_new_valid c Hc) as E. simpl in E. rewrite E.
  simpl. fold c. rewrite Hlt. simpl.
  destruct (date_eqb c t) eqn:Eeq; [| reflexivity].
  apply date_eqb_eq in Eeq. rewrite Eeq, sub_days_self. reflexivity.
Qed.

Lemma days_until_birthday_next_year b t :
  let c := mkdate (year t) (month b) (day b) in
  let c' := mkdate (year t + 1) (month b) (day b) in
  valid_date c -> date_ltb c t = true -> valid_date c' ->
  days_until_birthday b t = Some (sub_days c' t).
Proof.
  intros c c' Hc Hlt Hc'. unfold days_until_birthday.
  pose proof (date_new_valid c Hc) as E. simpl in E. rewrite E.
  simpl. fold c. rewrite Hlt.
  pose proof (date_new_valid c' Hc') as E'. simpl in E'. rewrite E'.
  simpl. fold c'.
  destruct (date_eqb c' t) eqn:Eeq; [| reflexivity].
  apply date_eqb_eq in Eeq. rewrite Eeq, sub_days_self. reflexivity.
Qed.

Lemma iter_tomorrow (n : nat) a :
  wf_date a ->
  wf_date (Nat.iter n tomorrow a) /\
  toordinal (Nat.iter n tomorrow a) = toordinal a + Z.of_nat n.
Proof.
  intros Ha. induction n as [| n [IHwf IHord]].
  - simpl. split; [exact Ha | lia].
  - simpl. split; [apply tomorrow_wf; exact IHwf |].
    rewrite toordinal_tomorrow by exact IHwf. lia.
Qed.

(** The ordinal difference counts the calendar days to step through. *)
Lemma sub_days_steps a b :
  wf_date a -> wf_date b -> 0 <= sub_days b a ->
  Nat.iter (Z.to_nat (sub_days b a)) tomorrow a = b.
Proof.
  intros Ha Hb Hle.
  destruct (iter_tomorrow (Z.to_nat (sub_days b a)) a Ha) as [Hwf Hord].
  apply toordinal_inj; [exact Hwf | exact Hb |].
  rewrite Hord. unfold sub_days in *. lia.
Qed.

Lemma date_ltb_false_sub_days a b :
  wf_date a -> wf_date b -> date_ltb a b = false -> 0 <= sub_days a b.
Proof.
  intros Ha Hb Hlt. unfold sub_days.
  destruct (date_trichotomy a b) as [H | [-> | H]]; [congruence | lia |].
  pose proof (toordinal_lt b a Hb Ha H). lia.
Qed.

Lemma date_ltb_true_sub_days a b :
  wf_date a -> wf_date b -> date_ltb a b = true -> 0 < sub_days b a.
Proof.
  intros Ha Hb Hlt. unfold sub_days.
  pose proof (toordinal_lt a b Ha Hb Hlt). lia.
Qed.

Lemma date_ltb_next_year t m d :
  date_ltb t (mkdate (year t + 1) m d) = true.
Proof.
  unfold date_ltb. simpl.
  destruct (Z.ltb_spec (year t) (year t + 1)); [reflexivity | lia].
Qed.

End DateEngineFacts.

(** ** The contracts of the date engine *)

Lemma pair_ltb_month_day a b :
  pair_ltb (month a, day a) (month b, day b) = true <-> month_day_lt a b.
Proof.
  unfold pair_ltb, month_day_lt. simpl.
  rewrite orb_true_iff, andb_true_iff, !Z.ltb_lt, Z.eqb_eq. reflexivity.
Qed.

(** C1, as the claim states it, fails: for the leap-day birth date
    2000-02-29 and the reference date 2000-03-01 the candidate 2000-02-29
    is a valid date strictly before the reference date, the replacement
    2001-02-29 is not a date, and [days_until_birthday] raises instead of
    returning a day count. *)
Lemma days_until_birthday_leap_day_raises :
  let b := mkdate 2000 2 29 in
  let t := mkdate 2000 3 1 in
  valid_date b /\ valid_date t /\ date_leb b t = true /\
  date_new (year t) (month b) (day b) = Some b /\
  date_ltb b t = true /\
  ~ exists n, days_until_birthday b t = Some n.
Proof.
  repeat split; try reflexivity.
  intros [n H]. vm_compute in H. discriminate.
Qed.

(** C1 (amended): for valid [b] and [t >= b] such that the candidate
    [(t.year, b.month, b.day)] is a date and, when that candidate is
    strictly before [t], [(t.year + 1, b.month, b.day)] is a date too,
    [days_until_birthday b t] returns the number [n] of calendar days to
    step from [t] to the target (the candidate, or its replacement in the
    following year when the candidate is strictly before [t]); [n] is the
    difference of the ordinals, and it is 0 when the candidate is [t]. *)
Theorem days_until_birthday_next_occurrence b t c :
  valid_date b -> valid_date t -> date_leb b t = true ->
  date_new (year t) (month b) (day b) = Some c ->
  (date_ltb c t = true ->
   valid_date (mkdate (year t + 1) (month b) (day b))) ->
  let target :=
    if date_ltb c t then mkdate (year t + 1) (month b) (day b) else c in
  exists n,
    days_until_birthday b t = Some n /\
    0 <= n /\
    Nat.iter (Z.to_nat n) tomorrow t = target /\
    n = sub_days target t /\
    (c = t -> n = 0).
Proof.
  intros Hb Ht _ Hnew Hnext target.
  apply date_new_Some in Hnew as [-> Hc].
  pose proof (valid_date_wf t Ht) as Wt.
  pose proof (valid_date_wf _ Hc) as Wc.
  subst target.
  destruct (date_ltb (mkdate (year t) (month b) (day b)) t) eqn:Elt.
  - specialize (Hnext eq_refl).
    pose proof (valid_date_wf _ Hnext) as Wn.
    pose proof (date_ltb_true_sub_days t _ Wt Wn
                  (date_ltb_next_year t (month b) (day b))) as Hpos.
    eexists. split; [apply days_until_birthday_next_year; assumption |].
    split; [lia |]. split; [apply sub_days_steps; auto; lia |].
    split; [reflexivity |].
    intros Heq. rewrite Heq, date_ltb_irrefl in Elt. discriminate.
  - pose proof (date_ltb_false_sub_days _ t Wc Wt Elt) as Hnn.
    eexists. split; [apply days_until_birthday_same_year; assumption |].
    split; [exact Hnn |]. split; [apply sub_days_steps; auto |].
    split; [reflexivity |].
    intros Heq. rewrite Heq. apply sub_days_self.
Qed.

Lemma days_until_birthday_next_occurrence_witness :
  exists n,
    days_until_birthday (mkdate 1990 1 1) (mkdate 2023 12 31) = Some n /\
    0 <= n /\
    Nat.iter (Z.to_nat n) tomorrow (mkdate 2023 12 31) = mkdate 2024 1 1 /\
    n = sub_days (mkdate 2024 1 1) (mkdate 2023 12 31) /\
    (mkdate 2023 1 1 = mkdate 2023 12 31 -> n = 0).
Proof.
  apply (days_until_birthday_next_occurrence
           (mkdate 1990 1 1) (mkdate 2023 12 31) (mkdate 2023 1 1));
    reflexivity.
Defined.

(** C2: for valid [b] and [t >= b], [calculate_age b t] is
    [t.year - b.year], minus 1 exactly when [(t.month, t.day)] is
    lexicographically less than [(b.month, b.day)]; and it is not
    negative. *)
Theorem calculate_age_contract b t :
  valid_date b -> valid_date t -> date_leb b t = true ->
  (month_day_lt t b -> calculate_age b t = year t - year b - 1) /\
  (~ month_day_lt t b -> calculate_age b t = year t - year b) /\
  0 <= calculate_age b t.
Proof.
  intros _ _ Hle. unfold calculate_age.
  pose proof (pair_ltb_month_day t b) as Hiff.
  destruct (pair_ltb (month t, day t) (month b, day b)) eqn:E.
  - assert (month_day_lt t b) as Hlt by (apply Hiff; reflexivity).
    split; [reflexivity |]. split; [tauto |].
    unfold date_leb, date_ltb in Hle. rewrite E in Hle.
    apply negb_true_iff, orb_false_iff in Hle as [Hy Hym].
    rewrite andb_true_r in Hym.
    apply Z.ltb_ge in Hy. apply Z.eqb_neq in Hym. lia.
  - assert (~ month_day_lt t b) as Hnlt
        by (intros Hlt; apply Hiff in Hlt; discriminate).
    split; [tauto |]. split; [reflexivity |].
    unfold date_leb, date_ltb in Hle.
    apply negb_true_iff, orb_false_iff in Hle as [Hy _].
    apply Z.ltb_ge in Hy. lia.
Qed.

Lemma calculate_age_contract_witness :
  (month_day_lt (mkdate 2024 3 14) (mkdate 1990 3 15) ->
   calculate_age (mkdate 1990 3 15) (mkdate 2024 3 14) = 2024 - 1990 - 1) /\
  (~ month_day_lt (mkdate 2024 3 14) (mkdate 1990 3 15) ->
   calculate_age (mkdate 1990 3 15) (mkdate 2024 3 14) = 2024 - 1990) /\
  0 <= calculate_age (mkdate 1990 3 15) (mkdate 2024 3 14).
Proof.
  apply (calculate_age_contract (mkdate 1990 3 15) (mkdate 2024 3 14));
    reflexivity.
Defined.

(** The target of a returned [days_until_birthday] lies at most 365 days
    ahead: within the year of [t], or past at most one year end. *)
Lemma days_until_birthday_range b t n :
  valid_date t -> days_until_birthday b t = Some n -> 0 <= n <= 365.
Proof.
  intros Ht H.
  apply days_until_birthday_inv in H as [Hc [[Hlt ->] | [Hlt [Hc' ->]]]].
  - pose proof (valid_date_wf t Ht) as Wt.
    pose proof (valid_date_wf _ Hc) as Wc.
    split; [apply date_ltb_false_sub_days; assumption |].
    destruct Wt as [Wtm Wtd], Wc as [Wcm Wcd]. simpl in Wcm, Wcd.
    pose proof (day_of_year_bounds _ _ _ Wtm Wtd).
    pose proof (day_of_year_bounds _ _ _ Wcm Wcd).
    unfold sub_days, toordinal, ymd2ord. simpl.
    destruct (is_leap (year t)); lia.
  - pose proof (valid_date_wf t Ht) as Wt.
    pose proof (valid_date_wf _ Hc) as Wc.
    pose proof (valid_date_wf _ Hc') as Wc'.
    pose proof (date_ltb_true_sub_days t _ Wt Wc'
                  (date_ltb_next_year t (month b) (day b))).
    split; [lia |].
    pose proof (toordinal_lt _ t Wc Wt Hlt) as Hord.
    destruct Wc as [Wcm Wcd]. simpl in Wcm, Wcd.
    unfold sub_days, toordinal, ymd2ord in *. simpl in *.
    rewrite days_before_year_succ.
    unfold days_before_month in *.
    destruct (is_leap (year t)), (is_leap (year t + 1)),
      (2 <? month b); simpl in *; lia.
Qed.

(** C5: whenever [days_until_birthday b t] is defined for valid [b] and
    [t], the result lies in [0, 366], and in [0, 365] if [b] is not a
    February 29. *)
Theorem days_until_birthday_bounds b t n :
  valid_date b -> valid_date t ->
  days_until_birthday b t = Some n ->
  0 <= n <= 366 /\
  (~ (month b = 2 /\ day b = 29) -> 0 <= n <= 365).
Proof.
  intros _ Ht H.
  pose proof (days_until_birthday_range b t n Ht H). lia.
Qed.

Lemma days_until_birthday_bounds_witness :
  days_until_birthday (mkdate 1990 3 1) (mkdate 2023 3 2) = Some 365 /\
  (0 <= 365 <= 366 /\
   (~ (month (mkdate 1990 3 1) = 2 /\ day (mkdate 1990 3 1) = 29) ->
    0 <= 365 <= 365)).
Proof.
  split; [reflexivity |].
  apply (days_until_birthday_bounds (mkdate 1990 3 1) (mkdate 2023 3 2) 365);
    reflexivity.
Defined.

(** C6: whenever [days_until_birthday b t] is defined for valid [b] and
    [t], the result is 0 if and only if the month and day of [t] are the
    month and day of [b]. *)
Theorem days_until_birthday_zero_iff b t n :
  valid_date b -> valid_date t ->
  days_until_birthday b t = Some n ->
  (n = 0 <-> month t = month b /\ day t = day b).
Proof.
  intros _ Ht H.
  pose proof (valid_date_wf t Ht) as Wt.
  pose proof H as Hinv.
  apply days_until_birthday_inv in Hinv
    as [Hc [[Hlt Hn] | [Hlt [Hc' Hn]]]].
  - pose proof (valid_date_wf _ Hc) as Wc. split.
    + intros ->. symmetry in Hn.
      assert (mkdate (year t) (month b) (day b) = t) as Heq
          by (apply toordinal_inj; auto; unfold sub_days in Hn; lia).
      rewrite <- Heq. simpl. auto.
    + intros [Hm Hd]. rewrite Hn, <- Hm, <- Hd.
      destruct t; simpl. apply sub_days_self.
  - pose proof (valid_date_wf _ Hc') as Wc'.
    pose proof (date_ltb_true_sub_days t _ Wt Wc'
                  (date_ltb_next_year t (month b) (day b))) as Hpos.
    split; [lia |].
    intros [Hm Hd]. rewrite <- Hm, <- Hd in Hlt.
    destruct t; simpl in Hlt. rewrite date_ltb_irrefl in Hlt. discriminate.
Qed.

Lemma days_until_birthday_zero_iff_witness :
  days_until_birthday (mkdate 1990 3 15) (mkdate 2024 3 15) = Some 0 /\
  (0 = 0 <->
   month (mkdate 2024 3 15) = month (mkdate 1990 3 15) /\
   day (mkdate 2024 3 15) = day (mkdate 1990 3 15)).
Proof.
  split; [reflexivity |].
  apply (days_until_birthday_zero_iff (mkdate 1990 3 15) (mkdate 2024 3 15) 0);
    reflexivity.
Defined.

(** C8: for the birth date 1990-03-15, the reference date 2024-03-14 gives
    age 33 and 1 day to go, and the reference date 2024-03-15 gives age 34
    and 0 days to go. *)
Theorem scenarios_A_and_B :
  calculate_age (mkdate 1990 3 15) (mkdate 2024 3 14) = 33 /\
  days_until_birthday (mkdate 1990 3 15) (mkdate 2024 3 14) = Some 1 /\
  calculate_age (mkdate 1990 3 15) (mkdate 2024 3 15) = 34 /\
  days_until_birthday (mkdate 1990 3 15) (mkdate 2024 3 15) = Some 0.
Proof. repeat split; vm_compute; reflexivity. Qed.

(** The age on the day after a day with [days_until_birthday = 1]. *)
Lemma age_on_next_day b t t' :
  valid_date t ->
  days_until_birthday b t = Some 1 ->
  wf_date t' -> toordinal t' = toordinal t + 1 ->
  calculate_age b t + 1 = calculate_age b t'.
Proof.
  intros Ht H Wt' Hord.
  pose proof (valid_date_wf t Ht) as Wt.
  apply days_until_birthday_inv in H as [Hc [[Hlt Hn] | [Hlt [Hc' Hn]]]].
  - pose proof (valid_date_wf _ Hc) as Wc.
    assert (t' = mkdate (year t) (month b) (day b)) as ->
        by (apply toordinal_inj; auto; unfold sub_days in Hn; lia).
    destruct (date_trichotomy t (mkdate (year t) (month b) (day b)))
      as [Hgt | [Heq | Hgt]]; [| | congruence].
    + unfold date_ltb in Hgt. simpl in Hgt.
      rewrite Z.ltb_irrefl, Z.eqb_refl in Hgt. simpl in Hgt.
      unfold calculate_age. simpl. rewrite Hgt.
      unfold pair_ltb. simpl. rewrite !Z.ltb_irrefl, andb_false_r. simpl. lia.
    + rewrite <- Heq, sub_days_self in Hn. discriminate.
  - pose proof (valid_date_wf _ Hc') as Wc'.
    assert (t' = mkdate (year t + 1) (month b) (day b)) as ->
        by (apply toordinal_inj; auto; unfold sub_days in Hn; lia).
    unfold date_ltb in Hlt. simpl in Hlt.
    rewrite Z.ltb_irrefl, Z.eqb_refl in Hlt. simpl in Hlt.
    unfold calculate_age. simpl.
    assert (pair_ltb (month t, day t) (month b, day b) = false) as ->.
    { unfold pair_ltb in *. simpl in *.
      apply orb_true_iff in Hlt as [Hlt | Hlt].
      - apply Z.ltb_lt in Hlt.
        destruct (Z.ltb_spec (month t) (month b)),
          (Z.eqb_spec (month t) (month b)); simpl; auto; lia.
      - apply andb_true_iff in Hlt as [He Hlt].
        apply Z.eqb_eq in He. apply Z.ltb_lt in Hlt.
        destruct (Z.ltb_spec (month t) (month b)),
          (Z.eqb_spec (month t) (month b)),
          (Z.ltb_spec (day t) (day b)); simpl; auto; lia. }
    unfold pair_ltb. simpl. rewrite !Z.ltb_irrefl, andb_false_r. simpl. lia.
Qed.

(** ** The add-person dialog *)

(** C9: when the text parses to a birth date strictly after the current
    date, [process_date] rejects it: the table is unchanged (no record is
    created), the dialog state is unchanged (the user is still asked for
    the date), and the one answer sent is the request for a correct
    date. *)
Theorem process_date_rejects_future_date
    (strptime_dmy : string -> option date) today user_id text st birthday_date :
  strptime_dmy text = Some birthday_date ->
  date_ltb today birthday_date = true ->
  let st' := process_date strptime_dmy today user_id text st in
  db st' = db st /\
  rows (db st') = rows (db st) /\
  storage st' = storage st /\
  answers st' = answers st ++ [(user_id, AnswerFutureDate)].
Proof.
  intros Hparse Hfuture. unfold process_date.
  rewrite Hparse, Hfuture. simpl. auto.
Qed.

Lemma process_date_rejects_future_date_witness :
  let st := mkbot (mkdb [] 0) ∅
              {[ 7 := mkfsm (Some waiting_for_date) (Some "Ann"%string) ]} [] in
  let st' := process_date (fun _ => Some (mkdate 2030 1 1))
               (mkdate 2024 3 14) 7 "01.01.2030"%string st in
  db st' = db st /\
  rows (db st') = rows (db st) /\
  storage st' = storage st /\
  answers st' = answers st ++ [(7, AnswerFutureDate)].
Proof.
  apply (process_date_rejects_future_date (fun _ => Some (mkdate 2030 1 1))
           (mkdate 2024 3 14) 7 "01.01.2030"%string _ (mkdate 2030 1 1));
    reflexivity.
Defined.

(** ** The listing of the table *)

Section ListingFacts.

Lemma insert_by_name_perm r l : insert_by_name r l ≡ₚ r :: l.
Proof.
  induction l as [| x l IH]; simpl; [reflexivity |].
  destruct (name_leb r x); [reflexivity |].
  rewrite IH. apply Permutation_swap.
Qed.

Lemma order_by_name_perm l : order_by_name l ≡ₚ l.
Proof.
  induction l as [| x l IH]; simpl; [reflexivity |].
  rewrite insert_by_name_perm. fold (order_by_name l). rewrite IH.
  reflexivity.
Qed.

Lemma name_leb_total a b : name_leb a b = false -> name_le b a.
Proof.
  unfold name_le, name_leb. intros H.
  destruct (String.leb_total (Row.name a) (Row.name b)); congruence.
Qed.

Lemma insert_by_name_HdRel a r l :
  name_le a r -> HdRel name_le a l -> HdRel name_le a (insert_by_name r l).
Proof.
  intros Har Hal. destruct l as [| x l]; simpl; [constructor; exact Har |].
  destruct (name_leb r x); constructor; [exact Har |].
  inversion Hal; assumption.
Qed.

Lemma insert_by_name_sorted r l :
  Sorted name_le l -> Sorted name_le (insert_by_name r l).
Proof.
  induction 1 as [| x l Hs IH Hhd]; simpl.
  - repeat constructor.
  - destruct (name_leb r x) eqn:E.
    + constructor; [constructor; assumption | constructor; exact E].
    + constructor; [exact IH |].
      apply insert_by_name_HdRel; [apply name_leb_total; exact E | exact Hhd].
Qed.

Lemma order_by_name_sorted l : Sorted name_le (order_by_name l).
Proof.
  induction l as [| x l IH]; simpl; [constructor |].
  apply insert_by_name_sorted, IH.
Qed.

Lemma person_of_row_fields today r p :
  person_of_row today r = Some p ->
  Person.id p = Row.id r /\ Person.name p = Row.name r /\
  Person.birthday_date p = Row.birthday_date r /\
  Person.user_id p = Row.user_id r /\
  Person.age p = calculate_age (Row.birthday_date r) today /\
  days_until_birthday (Row.birthday_date r) today = Some (Person.days_until p).
Proof.
  unfold person_of_row.
  destruct (days_until_birthday (Row.birthday_date r) today) as [n|];
    simpl; [| discriminate].
  intros [= <-]. simpl. auto 6.
Qed.

Lemma execute_select_cases db user_id :
  execute_select db user_id = None \/
  execute_select db user_id = Some (select_birthdays db user_id).
Proof.
  unfold execute_select. destruct user_id as [u |]; [| auto].
  destruct (truthy (Some u) && negb (fits_int64 u)); auto.
Qed.

(** A listing that returns is the loop run over the selected rows. *)
Lemma get_all_people_Some db user_id today people :
  get_all_people db user_id today = Some people ->
  mapM (person_of_row today) (select_birthdays db user_id) = Some people.
Proof.
  unfold get_all_people.
  destruct (execute_select_cases db user_id) as [-> | ->]; simpl;
    [discriminate | auto].
Qed.

Lemma get_all_people_bound db user_id today :
  (forall u, user_id = Some u -> u = 0 \/ fits_int64 u = true) ->
  get_all_people db user_id today =
  mapM (person_of_row today) (select_birthdays db user_id).
Proof.
  intros Hfit. unfold get_all_people, execute_select.
  destruct user_id as [u |]; [| reflexivity].
  destruct (Hfit u eq_refl) as [-> | ->]; [reflexivity |].
  simpl. rewrite andb_false_r. reflexivity.
Qed.

(** An owner that cannot be bound makes the listing raise. *)
Lemma get_all_people_overflow db u today :
  fits_int64 u = false -> get_all_people db (Some u) today = None.
Proof.
  intros Hu. unfold get_all_people, execute_select, truthy.
  destruct (Z.eqb_spec u 0) as [-> | Hne]; [discriminate |].
  rewrite Hu. reflexivity.
Qed.

Lemma get_all_people_fields db user_id today people :
  get_all_people db user_id today = Some people ->
  Person.id <$> people = Row.id <$> select_birthdays db user_id /\
  Person.name <$> people = Row.name <$> select_birthdays db user_id /\
  Person.user_id <$> people = Row.user_id <$> select_birthdays db user_id.
Proof.
  intros H. apply get_all_people_Some, mapM_Some_1 in H.
  induction H as [| r p l k Hrp _ IH]; [auto |].
  apply person_of_row_fields in Hrp as (Hi & Hn & _ & Hu & _).
  destruct IH as (IHi & IHn & IHu).
  repeat split; csimpl; congruence.
Qed.

Lemma select_birthdays_owner db u :
  u <> 0 ->
  select_birthdays db (Some u) =
  order_by_name (filter (fun r => Row.user_id r = u) (rows db)).
Proof.
  intros Hu. unfold select_birthdays, truthy.
  destruct (Z.eqb_spec u 0); [contradiction |]. simpl.
  f_equal. apply list_filter_iff. intros r. split; congruence.
Qed.

(** For a non-zero owner the listing is scoped to that owner and sorted
    by name. *)
Lemma get_all_people_owner_scoped db u today people :
  u <> 0 ->
  get_all_people db (Some u) today = Some people ->
  Forall (fun p => Person.user_id p = u) people /\
  Person.id <$> people ≡ₚ
    Row.id <$> filter (fun r => Row.user_id r = u) (rows db) /\
  Sorted (fun a b => String.leb a b = true) (Person.name <$> people).
Proof.
  intros Hu H.
  apply get_all_people_fields in H as (Hi & Hn & Ho).
  rewrite select_birthdays_owner in Hi, Hn, Ho by exact Hu.
  split; [| split].
  - apply Forall_forall. intros p Hp.
    assert (Person.user_id p ∈ Person.user_id <$> people) as Hin
        by (apply list_elem_of_fmap_2; exact Hp).
    rewrite Ho in Hin. apply list_elem_of_fmap in Hin as (r & -> & Hr).
    rewrite order_by_name_perm in Hr.
    apply list_elem_of_filter in Hr as [Hr _]. exact Hr.
  - rewrite Hi. apply fmap_Permutation, order_by_name_perm.
  - rewrite Hn. eapply Sorted_fmap; [| apply order_by_name_sorted].
    intros x y Hxy. exact Hxy.
Qed.

(** With the owner omitted the listing covers the whole table. *)
Lemma get_all_people_system_wide db today people :
  get_all_people db None today = Some people ->
  Person.id <$> people ≡ₚ Row.id <$> rows db /\
  Sorted (fun a b => String.leb a b = true) (Person.name <$> people).
Proof.
  intros H. apply get_all_people_fields in H as (Hi & Hn & _).
  unfold select_birthdays in Hi, Hn. simpl in Hi, Hn. split.
  - rewrite Hi. apply fmap_Permutation, order_by_name_perm.
  - rewrite Hn. eapply Sorted_fmap; [| apply order_by_name_sorted].
    intros x y Hxy. exact Hxy.
Qed.

Lemma elem_of_order_by_name r l : r ∈ order_by_name l <-> r ∈ l.
Proof. rewrite order_by_name_perm. reflexivity. Qed.

Lemma elem_of_select_birthdays db user_id r :
  r ∈ select_birthdays db user_id <->
  r ∈ rows db /\ (truthy user_id = true -> Some (Row.user_id r) = user_id).
Proof.
  unfold select_birthdays. destruct (truthy user_id).
  - rewrite elem_of_order_by_name, list_elem_of_filter. tauto.
  - rewrite elem_of_order_by_name. intuition discriminate.
Qed.

Lemma select_birthdays_length db :
  length (select_birthdays db None) = length (rows db).
Proof.
  unfold select_birthdays. simpl.
  apply Permutation_length, order_by_name_perm.
Qed.

Lemma mapM_elem_l {A B} (f : A -> option B) l k x :
  mapM f l = Some k -> x ∈ l -> exists y, y ∈ k /\ f x = Some y.
Proof.
  intros H. apply mapM_Some_1 in H.
  induction H as [| a b l k Hab _ IH]; intros Hx.
  - inversion Hx.
  - apply elem_of_cons in Hx as [-> | Hx].
    + exists b. split; [apply list_elem_of_here | exact Hab].
    + destruct (IH Hx) as (y & Hy & Hf).
      exists y. split; [apply list_elem_of_further; exact Hy | exact Hf].
Qed.

Lemma mapM_elem_r {A B} (f : A -> option B) l k y :
  mapM f l = Some k -> y ∈ k -> exists x, x ∈ l /\ f x = Some y.
Proof.
  intros H. apply mapM_Some_1 in H.
  induction H as [| a b l k Hab _ IH]; intros Hy.
  - inversion Hy.
  - apply elem_of_cons in Hy as [-> | Hy].
    + exists a. split; [apply list_elem_of_here | exact Hab].
    + destruct (IH Hy) as (x & Hx & Hf).
      exists x. split; [apply list_elem_of_further; exact Hx | exact Hf].
Qed.

(** Every listed person comes from a selected row. *)
Lemma get_all_people_row db user_id today people p :
  get_all_people db user_id today = Some people -> p ∈ people ->
  exists r, r ∈ select_birthdays db user_id /\ person_of_row today r = Some p.
Proof. intros H. apply get_all_people_Some in H. revert H. apply mapM_elem_r. Qed.

(** Every selected row is listed. *)
Lemma get_all_people_person db user_id today people r :
  get_all_people db user_id today = Some people ->
  r ∈ select_birthdays db user_id ->
  exists p, p ∈ people /\ person_of_row today r = Some p.
Proof. intros H. apply get_all_people_Some in H. revert H. apply mapM_elem_l. Qed.

(** The owner 0 is not told apart from an omitted owner. *)
Lemma get_all_people_zero db today :
  get_all_people db (Some 0) today = get_all_people db None today.
Proof. reflexivity. Qed.

End ListingFacts.

(** C4: the claim holds for every non-zero owner
    ([get_all_people_owner_scoped]) and for the omitted owner
    ([get_all_people_system_wide]), and fails for the owner 0, which the
    truth test [if user_id:] treats as omitted: asked for owner 0, on a
    table holding one record of owner 5 and one of owner 0, the listing
    returns both. *)
Theorem get_all_people_owner_zero_lists_everyone :
  let table :=
    mkdb [Row.mk 1 "Zoe"%string (mkdate 1985 7 1) 0;
          Row.mk 2 "Ann"%string (mkdate 1990 3 15) 5] 2 in
  get_all_people table (Some 0) (mkdate 2024 3 14) =
  Some [Person.mk 2 "Ann"%string (mkdate 1990 3 15) 5 33 1;
        Person.mk 1 "Zoe"%string (mkdate 1985 7 1) 0 38 109].
Proof. vm_compute. reflexivity. Qed.

(** ** The reminder pass *)

Section GroupingFacts.

Lemma group_of_absent u d : u ∉ d.*1 -> group_of u d = [].
Proof.
  induction d as [| [k ps] d IH]; simpl; [reflexivity |].
  intros Hnin. apply not_elem_of_cons in Hnin as [Hne Hnin].
  case_decide; [congruence |]. apply IH, Hnin.
Qed.

Lemma dict_append_keys d k p x :
  x ∈ (dict_append d k p).*1 <-> x = k \/ x ∈ d.*1.
Proof.
  induction d as [| [k' ps] d IH]; simpl.
  - rewrite list_elem_of_singleton, elem_of_nil. tauto.
  - destruct (Z.eqb_spec k' k); simpl.
    + subst. rewrite !elem_of_cons. tauto.
    + rewrite !elem_of_cons, IH. tauto.
Qed.

Lemma dict_append_NoDup d k p :
  NoDup d.*1 -> NoDup (dict_append d k p).*1.
Proof.
  induction d as [| [k' ps] d IH]; simpl; intros Hnd.
  - apply NoDup_singleton.
  - apply NoDup_cons in Hnd as [Hnin Hnd].
    destruct (Z.eqb_spec k' k); simpl.
    + apply NoDup_cons. auto.
    + apply NoDup_cons. split; [| apply IH, Hnd].
      rewrite dict_append_keys. intros [-> | Hin]; [lia | auto].
Qed.

Lemma group_of_dict_append u d k p :
  NoDup d.*1 ->
  group_of u (dict_append d k p) =
  group_of u d ++ (if decide (u = k) then [p] else []).
Proof.
  induction d as [| [k' ps] d IH]; simpl; intros Hnd.
  - repeat case_decide; subst; simpl; congruence.
  - apply NoDup_cons in Hnd as [Hnin Hnd].
    destruct (Z.eqb_spec k' k) as [-> | Hne]; simpl.
    + repeat case_decide; subst; try congruence.
      * rewrite (group_of_absent _ _ Hnin), !app_nil_r. reflexivity.
      * rewrite app_nil_r. reflexivity.
    + rewrite IH by exact Hnd.
      repeat case_decide; subst; try congruence.
      rewrite app_assoc. reflexivity.
Qed.

Lemma group_by_user_snoc l p :
  group_by_user (l ++ [p]) =
  dict_append (group_by_user l) (Person.user_id p) p.
Proof. unfold group_by_user. rewrite foldl_snoc. reflexivity. Qed.

Lemma group_by_user_NoDup l : NoDup (group_by_user l).*1.
Proof.
  induction l as [| p l IH] using rev_ind; [apply NoDup_nil_2 |].
  rewrite group_by_user_snoc. apply dict_append_NoDup, IH.
Qed.

(** The entry of [u] holds the people of [u], in listing order. *)
Lemma group_of_group_by_user u l :
  group_of u (group_by_user l) =
  filter (fun p => Person.user_id p = u) l.
Proof.
  induction l as [| p l IH] using rev_ind; [reflexivity |].
  rewrite group_by_user_snoc, group_of_dict_append
    by apply group_by_user_NoDup.
  rewrite IH, filter_app. f_equal.
  case_decide; subst.
  - rewrite filter_cons_True by reflexivity. reflexivity.
  - rewrite filter_cons_False by congruence. reflexivity.
Qed.

End GroupingFacts.

Section LogFacts.

Lemma attempted_for_app u l1 l2 :
  attempted_for u (l1 ++ l2) = attempted_for u l1 ++ attempted_for u l2.
Proof. unfold attempted_for. rewrite filter_app, fmap_app. reflexivity. Qed.

Lemma failed_for_app u l1 l2 :
  failed_for u (l1 ++ l2) <-> failed_for u l1 \/ failed_for u l2.
Proof.
  unfold failed_for. split.
  - intros [p Hp]. apply elem_of_app in Hp as [Hp | Hp]; eauto.
  - intros [[p Hp] | [p Hp]]; exists p; apply elem_of_app; auto.
Qed.

Lemma elem_of_attempted_for u p (log : list attempt) :
  p ∈ attempted_for u log <-> exists ok, (u, p, ok) ∈ log.
Proof.
  unfold attempted_for. rewrite list_elem_of_fmap. split.
  - intros ([[v q] ok] & -> & Hin).
    apply list_elem_of_filter in Hin as [Hv Hin]. simpl in Hv. subst v.
    exists ok. exact Hin.
  - intros [ok Hin]. exists (u, p, ok). split; [reflexivity |].
    apply list_elem_of_filter. auto.
Qed.

Lemma failed_for_attempted u log :
  attempted_for u log = [] -> ~ failed_for u log.
Proof.
  intros Hnil [p Hp].
  assert (p ∈ attempted_for u log) as Hin
      by (apply elem_of_attempted_for; eauto).
  rewrite Hnil in Hin. inversion Hin.
Qed.

Lemma failed_for_single u v p ok :
  failed_for u [(v, p, ok)] <-> u = v /\ ok = false.
Proof.
  unfold failed_for. split.
  - intros [q Hq]. apply list_elem_of_singleton in Hq. split; congruence.
  - intros [-> ->]. exists p. apply list_elem_of_singleton. reflexivity.
Qed.

End LogFacts.

Section TickFacts.

Variable World : Type.
Variable send_message : World -> Z -> reminder -> World * bool.

Lemma notify_extends u (s : tick_state World) p :
  exists ok, extends s (notify send_message u s p) [(u, p, ok)].
Proof.
  unfold notify, extends.
  destruct (send_message (ts_world s) u (reminder_text p)) as [w ok].
  exists ok. simpl. split; [reflexivity |].
  intros v. rewrite failed_for_single.
  destruct ok; [intuition congruence |].
  rewrite elem_of_difference, elem_of_singleton. intuition congruence.
Qed.

Lemma extends_trans (s1 s2 s3 : tick_state World) n1 n2 :
  extends s1 s2 n1 -> extends s2 s3 n2 -> extends s1 s3 (n1 ++ n2).
Proof.
  intros [Hl1 Ha1] [Hl2 Ha2]. split.
  - rewrite Hl2, Hl1, app_assoc. reflexivity.
  - intros v. rewrite Ha2, Ha1, failed_for_app. tauto.
Qed.

Lemma extends_refl (s : tick_state World) : extends s s [].
Proof.
  split; [rewrite app_nil_r; reflexivity |].
  intros v. split; [| tauto].
  intros Hv. split; [exact Hv |]. intros [p Hp]. inversion Hp.
Qed.

(** The inner loop attempts every person of the group, whatever the
    outcomes of the earlier deliveries. *)
Lemma notify_loop u persons (s : tick_state World) :
  exists new,
    extends s (foldl (notify send_message u) s persons) new /\
    forall v, attempted_for v new = if decide (v = u) then persons else [].
Proof.
  revert s. induction persons as [| p persons IH]; intros s; simpl.
  - exists []. split; [apply extends_refl |].
    intros v. case_decide; reflexivity.
  - destruct (notify_extends u s p) as [ok H1].
    destruct (IH (notify send_message u s p)) as (new & H2 & Hatt).
    exists ([(u, p, ok)] ++ new).
    split; [eapply extends_trans; eassumption |].
    intros v. rewrite attempted_for_app, Hatt.
    unfold attempted_for.
    case_decide; subst.
    + rewrite filter_cons_True by reflexivity. reflexivity.
    + rewrite filter_cons_False by (simpl; congruence). reflexivity.
Qed.

(** The outer loop: the owners reachable at the start get their whole
    group attempted, the others nothing. *)
Lemma notify_groups groups (s : tick_state World) :
  NoDup groups.*1 ->
  exists new,
    extends s (foldl (notify_group send_message) s groups) new /\
    forall v, attempted_for v new =
              if decide (v ∈ ts_active s) then group_of v groups else [].
Proof.
  revert s. induction groups as [| [k ps] groups IH]; intros s Hnd; simpl.
  - exists []. split; [apply extends_refl |].
    intros v. case_decide; reflexivity.
  - rewrite fmap_cons in Hnd. apply NoDup_cons in Hnd as [Hnin Hnd].
    cbn [fst] in Hnin.
    unfold notify_group at 2. simpl.
    destruct (decide (k ∈ ts_active s)) as [Hk | Hk].
    + destruct (notify_loop k ps s) as (n1 & H1 & Hatt1).
      destruct (IH (foldl (notify send_message k) s ps) Hnd)
        as (n2 & H2 & Hatt2).
      exists (n1 ++ n2). split; [eapply extends_trans; eassumption |].
      intros v. rewrite attempted_for_app, Hatt1, Hatt2.
      destruct (decide (v = k)) as [-> | Hne].
      * rewrite (group_of_absent _ _ Hnin).
        repeat case_decide; try contradiction; reflexivity.
      * rewrite (decide_False (P := k = v)) by congruence. simpl.
        assert (v ∈ ts_active (foldl (notify send_message k) s ps)
                <-> v ∈ ts_active s) as Hiff.
        { destruct H1 as [_ Ha]. rewrite Ha. split; [tauto |].
          intros Hv. split; [exact Hv |].
          apply failed_for_attempted. rewrite Hatt1.
          rewrite decide_False by exact Hne. reflexivity. }
        repeat case_decide; tauto.
    + destruct (IH s Hnd) as (n2 & H2 & Hatt2).
      exists n2. split; [exact H2 |].
      intros v. rewrite Hatt2.
      destruct (decide (v = k)) as [-> | Hne].
      * rewrite !decide_False by exact Hk. reflexivity.
      * rewrite (decide_False (P := k = v)) by congruence. reflexivity.
Qed.

Lemma tick_unfold db today active w people :
  get_people_with_birthday_in_days db 1 today = Some people ->
  send_birthday_reminders_tick send_message db today active w =
  foldl (notify_group send_message) (mktick active w [])
    (group_by_user people).
Proof.
  intros H. unfold send_birthday_reminders_tick. rewrite H.
  destruct people; reflexivity.
Qed.

Lemma tick_no_people db today active w :
  get_people_with_birthday_in_days db 1 today = None ->
  send_birthday_reminders_tick send_message db today active w =
  mktick active w [].
Proof.
  intros H. unfold send_birthday_reminders_tick. rewrite H. reflexivity.
Qed.

(** One pass, summed up. *)
Lemma tick_summary db today active w people :
  get_people_with_birthday_in_days db 1 today = Some people ->
  let s' := send_birthday_reminders_tick send_message db today active w in
  (forall v, attempted_for v (ts_log s') =
             if decide (v ∈ active)
             then filter (fun p => Person.user_id p = v) people else []) /\
  (forall v, v ∈ ts_active s' <-> v ∈ active /\ ~ failed_for v (ts_log s')).
Proof.
  intros H s'. subst s'. rewrite (tick_unfold _ _ _ _ _ H).
  destruct (notify_groups (group_by_user people) (mktick active w [])
              (group_by_user_NoDup people)) as (new & [Hlog Hact] & Hatt).
  simpl in Hlog, Hact, Hatt. rewrite Hlog. split.
  - intros v. rewrite Hatt, group_of_group_by_user. reflexivity.
  - exact Hact.
Qed.

End TickFacts.

Section TraceFacts.

Variable World : Type.
Variable send_message : World -> Z -> reminder -> World * bool.

Lemma pass_trace_app active w l1 active' w' l2 active'' w'' :
  pass_trace send_message active w l1 active' w' ->
  pass_trace send_message active' w' l2 active'' w'' ->
  pass_trace send_message active w (l1 ++ l2) active'' w''.
Proof.
  induction 1 as [| A v u p v' l A' v'' Hs _ IH | A v u p v' l A' v'' Hs _ IH];
    intros H2; simpl.
  - exact H2.
  - eapply pass_sent; [exact Hs | apply IH, H2].
  - eapply pass_failed; [exact Hs | apply IH, H2].
Qed.

Lemma pass_trace_app_inv l1 : forall active w l2 active'' w'',
  pass_trace send_message active w (l1 ++ l2) active'' w'' ->
  exists active' w',
    pass_trace send_message active w l1 active' w' /\
    pass_trace send_message active' w' l2 active'' w''.
Proof.
  induction l1 as [| a l1 IH]; intros active w l2 active'' w'' H; simpl in H.
  - exists active, w. split; [apply pass_done | exact H].
  - inversion H as [| A v u p v' l A' v'' Hs Hrest | A v u p v' l A' v'' Hs Hrest];
      subst.
    + destruct (IH _ _ _ _ _ Hrest) as (A1 & w1 & H1 & H2).
      exists A1, w1. split; [eapply pass_sent; eassumption | exact H2].
    + destruct (IH _ _ _ _ _ Hrest) as (A1 & w1 & H1 & H2).
      exists A1, w1. split; [eapply pass_failed; eassumption | exact H2].
Qed.

(** A delivery that raised, seen in the middle of a trace. *)
Lemma pass_trace_failure l1 u p l2 active w active'' w'' :
  pass_trace send_message active w (l1 ++ (u, p, false) :: l2) active'' w'' ->
  exists active1 w1 w1',
    pass_trace send_message active w l1 active1 w1 /\
    send_message w1 u (reminder_text p) = (w1', false) /\
    pass_trace send_message (active1 ∖ {[u]}) w1' l2 active'' w''.
Proof.
  intros H. apply pass_trace_app_inv in H as (A1 & w1 & H1 & H2).
  inversion H2 as [| | A v u' p' v' l A' v'' Hs Hrest]; subst.
  exists A1, w1, v'. auto.
Qed.

Lemma traces_refl s : traces send_message s s.
Proof. exists []. split; [rewrite app_nil_r; reflexivity | apply pass_done]. Qed.

Lemma traces_trans s1 s2 s3 : traces send_message s1 s2 -> traces send_message s2 s3 ->
  traces send_message s1 s3.
Proof.
  intros (n1 & Hl1 & H1) (n2 & Hl2 & H2). exists (n1 ++ n2). split.
  - rewrite Hl2, Hl1, app_assoc. reflexivity.
  - eapply pass_trace_app; eassumption.
Qed.

Lemma notify_traces u (s : tick_state World) p :
  traces send_message s (notify send_message u s p).
Proof.
  unfold traces, notify.
  destruct (send_message (ts_world s) u (reminder_text p)) as [w' ok] eqn:E.
  exists [(u, p, ok)]. simpl. split; [reflexivity |].
  destruct ok.
  - eapply pass_sent; [exact E | apply pass_done].
  - eapply pass_failed; [exact E | apply pass_done].
Qed.

Lemma notify_loop_traces u persons (s : tick_state World) :
  traces send_message s (foldl (notify send_message u) s persons).
Proof.
  revert s. induction persons as [| p persons IH]; intros s; simpl.
  - apply traces_refl.
  - eapply traces_trans; [apply notify_traces | apply IH].
Qed.

Lemma notify_groups_traces groups (s : tick_state World) :
  traces send_message s (foldl (notify_group send_message) s groups).
Proof.
  revert s. induction groups as [| g groups IH]; intros s; simpl.
  - apply traces_refl.
  - eapply traces_trans; [| apply IH].
    unfold notify_group. case_decide.
    + apply notify_loop_traces.
    + apply traces_refl.
Qed.

(** The log of a pass is the record of its calls of [send_message]. *)
Lemma tick_pass_trace db today active (w : World) :
  let s' := send_birthday_reminders_tick send_message db today active w in
  pass_trace send_message active w (ts_log s') (ts_active s') (ts_world s').
Proof.
  intros s'. subst s'. unfold send_birthday_reminders_tick.
  destruct (get_people_with_birthday_in_days db 1 today) as [[| p people] |];
    try apply pass_done.
  destruct (notify_groups_traces (group_by_user (p :: people))
              (mktick active w [])) as (new & Hlog & Htrace).
  simpl in Hlog, Htrace. rewrite Hlog. exact Htrace.
Qed.

(** The people attempted in a pass are people the fetch returned, listed
    on the day of the pass. *)
Lemma tick_attempt_person db today active (w : World) u p ok :
  (u, p, ok) ∈ ts_log (send_birthday_reminders_tick send_message db today
                         active w) ->
  Person.user_id p = u /\ Person.days_until p = 1 /\
  exists r, r ∈ rows db /\ person_of_row today r = Some p.
Proof.
  intros Hin.
  destruct (get_people_with_birthday_in_days db 1 today) as [people |] eqn:E.
  - destruct (tick_summary World send_message db today active w people E)
      as [Hatt _].
    assert (p ∈ attempted_for u
                  (ts_log (send_birthday_reminders_tick send_message db today
                             active w))) as Hp
        by (apply elem_of_attempted_for; eauto).
    rewrite Hatt in Hp. case_decide; [| inversion Hp].
    apply list_elem_of_filter in Hp as [Hu Hp].
    unfold get_people_with_birthday_in_days in E.
    destruct (get_all_people db None today) as [everyone |] eqn:Eall;
      simpl in E; [| discriminate].
    injection E as <-. apply list_elem_of_filter in Hp as [H1 Hp].
    destruct (get_all_people_row _ _ _ _ p Eall Hp) as (r & Hr & Hrow).
    apply elem_of_select_birthdays in Hr as [Hr _].
    split; [exact Hu |]. split; [exact H1 |]. exists r. auto.
  - rewrite (tick_no_people World send_message db today active w E) in Hin.
    inversion Hin.
Qed.

End TraceFacts.

(** ** The contracts of the reminder pass *)

(** A pass in which every delivery fails: owner 7 is reachable and has
    two people whose birthday is tomorrow. *)
Lemma two_people_pass_log :
  ts_log (send_birthday_reminders_tick always_fails two_people_table
            (mkdate 2024 3 14) {[7]} tt) =
  [(7, Person.mk 1 "Ann"%string (mkdate 1990 3 15) 7 33 1, false);
   (7, Person.mk 2 "Bob"%string (mkdate 1985 3 15) 7 38 1, false)].
Proof.
  unfold send_birthday_reminders_tick.
  replace (get_people_with_birthday_in_days _ 1 (mkdate 2024 3 14))
    with (Some [Person.mk 1 "Ann"%string (mkdate 1990 3 15) 7 33 1;
                Person.mk 2 "Bob"%string (mkdate 1985 3 15) 7 38 1])
    by (vm_compute; reflexivity).
  replace (group_by_user _)
    with [(7, [Person.mk 1 "Ann"%string (mkdate 1990 3 15) 7 33 1;
               Person.mk 2 "Bob"%string (mkdate 1985 3 15) 7 38 1])]
    by (vm_compute; reflexivity).
  simpl. unfold notify_group. simpl.
  rewrite decide_True by (apply elem_of_singleton; reflexivity).
  reflexivity.
Qed.

(** C3, as the claim states it, fails: in the pass above the second
    person of owner 7 is attempted after the first delivery to owner 7
    has failed; the log is the record of the two calls of
    [send_message], both of which raised. *)
Lemma tick_continues_after_failure :
  let s' :=
    send_birthday_reminders_tick always_fails two_people_table
      (mkdate 2024 3 14) {[7]} tt in
  ts_log s' =
    [(7, Person.mk 1 "Ann"%string (mkdate 1990 3 15) 7 33 1, false);
     (7, Person.mk 2 "Bob"%string (mkdate 1985 3 15) 7 38 1, false)] /\
  ~ stops_after_failure (ts_log s') /\
  pass_trace always_fails {[7]} tt (ts_log s') (ts_active s') (ts_world s').
Proof.
  intros s'. subst s'. split; [exact two_people_pass_log |].
  split; [| apply tick_pass_trace].
  rewrite two_people_pass_log. intros Hstop.
  eapply (Hstop 0%nat 1%nat 7); [lia | reflexivity | reflexivity].
Qed.

(** C3 (amended): in one pass, when a delivery to owner [u] fails, [u]
    is removed from the reachability set: the call of [send_message]
    that raised is followed at once by the [discard] of [u], and the
    pass goes on from the set without [u].  The people of [u]'s group
    are all attempted in that pass, those after the failed delivery
    included: the membership test is made once per owner, before the
    loop over the owner's people.  Every attempt is a call of
    [send_message]. *)
Theorem tick_failure_evicts_owner (World : Type)
    (send_message : World -> Z -> reminder -> World * bool)
    db today active (w : World) u person before after :
  let s' := send_birthday_reminders_tick send_message db today active w in
  ts_log s' = before ++ (u, person, false) :: after ->
  (exists active1 w1 w1',
     pass_trace send_message active w before active1 w1 /\
     send_message w1 u (reminder_text person) = (w1', false) /\
     pass_trace send_message (active1 ∖ {[u]}) w1' after
       (ts_active s') (ts_world s')) /\
  (exists people,
     get_people_with_birthday_in_days db 1 today = Some people /\
     attempted_for u (ts_log s') =
     filter (fun p => Person.user_id p = u) people /\
     forall p, p ∈ people -> Person.user_id p = u ->
               exists ok, (u, p, ok) ∈ ts_log s').
Proof.
  intros s' Hlog.
  pose proof (tick_pass_trace World send_message db today active w) as Htrace.
  cbv zeta in Htrace. fold s' in Htrace. split.
  - rewrite Hlog in Htrace. apply pass_trace_failure in Htrace. exact Htrace.
  - assert (failed_for u (ts_log s')) as Hfail.
    { exists person. rewrite Hlog. apply elem_of_app. right.
      apply list_elem_of_here. }
    destruct (get_people_with_birthday_in_days db 1 today)
      as [people |] eqn:E.
    + destruct (tick_summary World send_message db today active w people E)
        as [Hatt Hact]. fold s' in Hatt, Hact.
      assert (attempted_for u (ts_log s') =
              filter (fun p => Person.user_id p = u) people) as Heq.
      { rewrite Hatt. case_decide as Hin; [reflexivity |].
        exfalso. revert Hfail. apply failed_for_attempted.
        rewrite Hatt, decide_False by exact Hin. reflexivity. }
      exists people. split; [reflexivity |]. split; [exact Heq |].
      intros p Hp Hu. apply elem_of_attempted_for. rewrite Heq.
      apply list_elem_of_filter. auto.
    + exfalso. subst s'.
      rewrite (tick_no_people World send_message db today active w E) in Hfail.
      destruct Hfail as [p Hp]. inversion Hp.
Qed.

(** Scenario D: one person whose birthday is tomorrow, a reachable owner
    and a delivery that succeeds: one notification, announcing the age 34,
    and the owner is still reachable. *)
Lemma scenario_D :
  let s' :=
    send_birthday_reminders_tick always_delivers one_person_table
      (mkdate 2024 3 14) {[7]} tt in
  ts_log s' =
    [(7, Person.mk 1 "Ann"%string (mkdate 1990 3 15) 7 33 1, true)] /\
  rem_turns
    (reminder_text (Person.mk 1 "Ann"%string (mkdate 1990 3 15) 7 33 1)) = 34 /\
  ts_active s' = {[7]}.
Proof.
  unfold send_birthday_reminders_tick.
  replace (get_people_with_birthday_in_days _ 1 (mkdate 2024 3 14))
    with (Some [Person.mk 1 "Ann"%string (mkdate 1990 3 15) 7 33 1])
    by (vm_compute; reflexivity).
  replace (group_by_user _)
    with [(7, [Person.mk 1 "Ann"%string (mkdate 1990 3 15) 7 33 1])]
    by (vm_compute; reflexivity).
  simpl. unfold notify_group. simpl.
  rewrite decide_True by (apply elem_of_singleton; reflexivity).
  simpl. auto.
Qed.

Lemma tick_failure_evicts_owner_witness :
  let ann := Person.mk 1 "Ann"%string (mkdate 1990 3 15) 7 33 1 in
  let bob := Person.mk 2 "Bob"%string (mkdate 1985 3 15) 7 38 1 in
  let s' :=
    send_birthday_reminders_tick always_fails two_people_table
      (mkdate 2024 3 14) {[7]} tt in
  (exists active1 w1 w1',
     pass_trace always_fails {[7]} tt [] active1 w1 /\
     always_fails w1 7 (reminder_text ann) = (w1', false) /\
     pass_trace always_fails (active1 ∖ {[7]}) w1' [(7, bob, false)]
       (ts_active s') (ts_world s')) /\
  (exists people,
     get_people_with_birthday_in_days two_people_table 1 (mkdate 2024 3 14) =
       Some people /\
     attempted_for 7 (ts_log s') =
     filter (fun p => Person.user_id p = 7) people /\
     forall p, p ∈ people -> Person.user_id p = 7 ->
               exists ok, (7, p, ok) ∈ ts_log s').
Proof.
  apply (tick_failure_evicts_owner unit always_fails two_people_table
           (mkdate 2024 3 14) {[7]} tt 7
           (Person.mk 1 "Ann"%string (mkdate 1990 3 15) 7 33 1) []
           [(7, Person.mk 2 "Bob"%string (mkdate 1985 3 15) 7 38 1, false)]).
  exact two_people_pass_log.
Defined.

(** C7: in one pass whose fetch returns, the groups are made of the people
    with [days_until = 1]; a person is attempted for an owner exactly when
    the owner is in the reachability set and the person is in the owner's
    group; each such person gets one attempt of its own; and an owner none
    of whose deliveries failed is in the set after the pass exactly when
    it was before.  Every attempt is one call of [send_message], made on
    the world the call before it left, with the reminder text of that one
    person; its outcome is what the call returned. *)
Theorem tick_one_attempt_per_person (World : Type)
    (send_message : World -> Z -> reminder -> World * bool)
    db today active (w : World) people :
  get_people_with_birthday_in_days db 1 today = Some people ->
  NoDup (Row.id <$> rows db) ->
  let s' := send_birthday_reminders_tick send_message db today active w in
  (exists everyone,
     get_all_people db None today = Some everyone /\
     people = filter (fun p => Person.days_until p = 1) everyone) /\
  (forall u person,
     person ∈ attempted_for u (ts_log s') <->
     u ∈ active /\ person ∈ people /\ Person.user_id person = u) /\
  (forall u,
     attempted_for u (ts_log s') =
     if decide (u ∈ active)
     then filter (fun p => Person.user_id p = u) people else []) /\
  (forall u, NoDup (attempted_for u (ts_log s'))) /\
  (forall u, ~ failed_for u (ts_log s') ->
             (u ∈ ts_active s' <-> u ∈ active)) /\
  pass_trace send_message active w (ts_log s') (ts_active s') (ts_world s').
Proof.
  intros Hfetch Hkey s'.
  pose proof (tick_pass_trace World send_message db today active w) as Htrace.
  cbv zeta in Htrace. fold s' in Htrace.
  destruct (tick_summary World send_message db today active w people Hfetch)
    as [Hatt Hact]. fold s' in Hatt, Hact.
  unfold get_people_with_birthday_in_days in Hfetch.
  destruct (get_all_people db None today) as [everyone |] eqn:Hall;
    simpl in Hfetch; [| discriminate].
  injection Hfetch as Hpeople. symmetry in Hpeople.
  assert (NoDup people) as Hnd.
  { rewrite Hpeople. apply NoDup_filter.
    apply (NoDup_fmap_1 Person.id).
    destruct (get_all_people_system_wide db today everyone Hall) as [Hperm _].
    rewrite Hperm. exact Hkey. }
  split; [exists everyone; auto |].
  split; [| split; [exact Hatt | split; [| split; [| exact Htrace]]]].
  - intros u person. rewrite Hatt. case_decide as Hin.
    + rewrite list_elem_of_filter. tauto.
    + rewrite elem_of_nil. tauto.
  - intros u. rewrite Hatt. case_decide.
    + apply NoDup_filter, Hnd.
    + apply NoDup_nil_2.
  - intros u Hok. rewrite Hact. tauto.
Qed.

Lemma tick_one_attempt_per_person_witness :
  let people :=
    [Person.mk 1 "Ann"%string (mkdate 1990 3 15) 7 33 1;
     Person.mk 2 "Bob"%string (mkdate 1985 3 15) 7 38 1] in
  let s' :=
    send_birthday_reminders_tick always_fails two_people_table
      (mkdate 2024 3 14) {[7]} tt in
  (exists everyone,
     get_all_people two_people_table None (mkdate 2024 3 14) =
       Some everyone /\
     people = filter (fun p => Person.days_until p = 1) everyone) /\
  (forall u person,
     person ∈ attempted_for u (ts_log s') <->
     u ∈ ({[7]} : gset Z) /\ person ∈ people /\ Person.user_id person = u) /\
  (forall u,
     attempted_for u (ts_log s') =
     if decide (u ∈ ({[7]} : gset Z))
     then filter (fun p => Person.user_id p = u) people else []) /\
  (forall u, NoDup (attempted_for u (ts_log s'))) /\
  (forall u, ~ failed_for u (ts_log s') ->
             (u ∈ ts_active s' <-> u ∈ ({[7]} : gset Z))) /\
  pass_trace always_fails {[7]} tt (ts_log s') (ts_active s') (ts_world s').
Proof.
  apply (tick_one_attempt_per_person unit always_fails two_people_table
           (mkdate 2024 3 14) {[7]} tt).
  - vm_compute. reflexivity.
  - simpl. apply NoDup_cons. split.
    + rewrite list_elem_of_singleton. discriminate.
    + apply NoDup_singleton.
Defined.

(** C10: for valid [b] and [t >= b] with [days_until_birthday b t = 1],
    the age announced in the reminder text is the age on the following
    day, also when that day falls in the next year.  The person record
    the listing builds on day [t] for a row born on [b] has the age
    [calculate_age b t]; the reminder text made from it announces that
    age plus one, which is [calculate_age b (tomorrow t)]; and in a pass
    on day [t] this is the text handed to [send_message] for every
    person born on [b] that the log names.  The following day is
    [tomorrow t], the one date whose ordinal is one more than that of
    [t]. *)
Theorem announced_age_is_age_on_birthday b t :
  valid_date b -> valid_date t -> date_leb b t = true ->
  days_until_birthday b t = Some 1 ->
  (calculate_age b t + 1 = calculate_age b (tomorrow t) /\
   toordinal (tomorrow t) = toordinal t + 1 /\
   (forall t', valid_date t' -> toordinal t' = toordinal t + 1 ->
               t' = tomorrow t)) /\
  (forall row,
     Row.birthday_date row = b ->
     exists p,
       person_of_row t row = Some p /\
       Person.days_until p = 1 /\
       rem_turns (reminder_text p) = calculate_age b t + 1 /\
       rem_turns (reminder_text p) = calculate_age b (tomorrow t)) /\
  (forall (World : Type)
          (send_message : World -> Z -> reminder -> World * bool)
          db active (w : World) u p ok,
     let s' := send_birthday_reminders_tick send_message db t active w in
     (u, p, ok) ∈ ts_log s' -> Person.birthday_date p = b ->
     rem_turns (reminder_text p) = calculate_age b t + 1 /\
     rem_turns (reminder_text p) = calculate_age b (tomorrow t) /\
     pass_trace send_message active w (ts_log s') (ts_active s')
       (ts_world s')).
Proof.
  intros _ Ht _ H.
  pose proof (valid_date_wf t Ht) as Wt.
  pose proof (tomorrow_wf t Wt) as Wn.
  pose proof (toordinal_tomorrow t Wt) as Hord.
  pose proof (age_on_next_day b t (tomorrow t) Ht H Wn Hord) as Hage.
  split; [| split].
  - split; [exact Hage |]. split; [exact Hord |].
    intros t' Ht' Hord'. apply toordinal_inj; [| exact Wn | lia].
    apply valid_date_wf, Ht'.
  - intros row Hb. unfold person_of_row. rewrite Hb, H. simpl.
    eexists. split; [reflexivity |]. simpl. auto.
  - intros World send_message db active w u p ok s' Hin Hb.
    destruct (tick_attempt_person World send_message db t active w u p ok Hin)
      as (_ & _ & r & _ & Hrow).
    apply person_of_row_fields in Hrow as (_ & _ & Hbd & _ & Hp & _).
    assert (rem_turns (reminder_text p) = calculate_age b t + 1) as Hturn.
    { simpl. rewrite Hp, <- Hbd, Hb. reflexivity. }
    split; [exact Hturn |]. split; [rewrite Hturn; exact Hage |].
    apply tick_pass_trace.
Qed.

Lemma announced_age_is_age_on_birthday_witness :
  let b := mkdate 1990 1 1 in
  let t := mkdate 2023 12 31 in
  days_until_birthday b t = Some 1 /\
  ((calculate_age b t + 1 = calculate_age b (tomorrow t) /\
    toordinal (tomorrow t) = toordinal t + 1 /\
    (forall t', valid_date t' -> toordinal t' = toordinal t + 1 ->
                t' = tomorrow t)) /\
   (forall row,
      Row.birthday_date row = b ->
      exists p,
        person_of_row t row = Some p /\
        Person.days_until p = 1 /\
        rem_turns (reminder_text p) = calculate_age b t + 1 /\
        rem_turns (reminder_text p) = calculate_age b (tomorrow t)) /\
   (forall (World : Type)
           (send_message : World -> Z -> reminder -> World * bool)
           db active (w : World) u p ok,
      let s' := send_birthday_reminders_tick send_message db t active w in
      (u, p, ok) ∈ ts_log s' -> Person.birthday_date p = b ->
      rem_turns (reminder_text p) = calculate_age b t + 1 /\
      rem_turns (reminder_text p) = calculate_age b (tomorrow t) /\
      pass_trace send_message active w (ts_log s') (ts_active s')
        (ts_world s'))).
Proof.
  split; [reflexivity |].
  apply (announced_age_is_age_on_birthday
           (mkdate 1990 1 1) (mkdate 2023 12 31));
    reflexivity.
Defined.

(** ** More on the date engine *)

Section DateEngineEdges.

Lemma check_date_fields_iff y m d :
  check_date_fields y m d = true <->
  MINYEAR <= y <= MAXYEAR /\ 1 <= m <= 12 /\ 1 <= d <= days_in_month y m.
Proof.
  unfold check_date_fields. rewrite !andb_true_iff, !Z.leb_le. lia.
Qed.

Lemma is_leap_succ y : is_leap y = true -> is_leap (y + 1) = false.
Proof.
  unfold is_leap. rewrite andb_true_iff, Z.eqb_eq. intros [H4 _].
  destruct (Z.eqb_spec ((y + 1) mod 4) 0) as [H4' |]; [| reflexivity].
  exfalso. Z.div_mod_to_equations. lia.
Qed.

Lemma date_ltb_same_year t m d :
  date_ltb (mkdate (year t) m d) t = pair_ltb (m, d) (month t, day t).
Proof.
  unfold date_ltb. simpl. rewrite Z.ltb_irrefl, Z.eqb_refl. reflexivity.
Qed.

Lemma date_ltb_month_day b t :
  date_ltb (mkdate (year t) (month b) (day b)) t = true <-> month_day_lt b t.
Proof. rewrite date_ltb_same_year. apply pair_ltb_month_day. Qed.

(** A date that exists in every year can be moved to any year in range. *)
Lemma every_year_any_year b y :
  every_year b -> MINYEAR <= y <= MAXYEAR ->
  valid_date (mkdate y (month b) (day b)).
Proof.
  intros [Hb Hne] Hy. destruct b as [yb mb db]. unfold valid_date in *.
  simpl in *.
  apply check_date_fields_iff in Hb as (_ & Hm & Hd).
  apply check_date_fields_iff. split; [exact Hy |]. split; [exact Hm |].
  unfold days_in_month in *.
  month_cases mb; destruct (is_leap yb), (is_leap y); simpl in *; lia.
Qed.

Lemma leap_day_valid_iff y :
  valid_date (mkdate y 2 29) <-> MINYEAR <= y <= MAXYEAR /\ is_leap y = true.
Proof.
  unfold valid_date. simpl. rewrite check_date_fields_iff.
  unfold days_in_month. simpl. destruct (is_leap y); simpl; split;
    intros; try lia; intuition (try lia; try discriminate).
Qed.

End DateEngineEdges.

(** X1: for a birth date on a 29th of February, [days_until_birthday]
    returns exactly on the reference dates that lie in a leap year, not
    after its 29th of February; on every other date it raises. *)
Theorem leap_day_birthday_defined_iff b t :
  valid_date b -> valid_date t -> month b = 2 -> day b = 29 ->
  (is_Some (days_until_birthday b t) <->
   is_leap (year t) = true /\ ~ month_day_lt b t).
Proof.
  intros _ Ht Hm Hd. pose proof (valid_date_year t Ht) as Hy. split.
  - intros [n H]. apply days_until_birthday_inv in H as [Hc Hcases].
    rewrite Hm, Hd in Hc, Hcases.
    apply leap_day_valid_iff in Hc as [_ Hleap].
    split; [exact Hleap |].
    destruct Hcases as [[Hlt _] | [_ [Hc' _]]].
    + intros Hmd. apply date_ltb_month_day in Hmd.
      rewrite Hm, Hd in Hmd. congruence.
    + apply leap_day_valid_iff in Hc' as [_ Hleap'].
      rewrite (is_leap_succ _ Hleap) in Hleap'. discriminate.
  - intros [Hleap Hnot]. eexists.
    apply days_until_birthday_same_year.
    + rewrite Hm, Hd. apply leap_day_valid_iff. auto.
    + destruct (date_ltb _ t) eqn:E; [| reflexivity].
      apply date_ltb_month_day in E. contradiction.
Qed.

Lemma leap_day_birthday_defined_iff_witness :
  is_Some (days_until_birthday (mkdate 2000 2 29) (mkdate 2024 1 10)) <->
  is_leap 2024 = true /\
  ~ month_day_lt (mkdate 2000 2 29) (mkdate 2024 1 10).
Proof.
  apply (leap_day_birthday_defined_iff (mkdate 2000 2 29) (mkdate 2024 1 10));
    reflexivity.
Defined.

(** X2: for a birth date other than a 29th of February,
    [days_until_birthday] returns on every reference date, except in the
    last year of the calendar (9999) once the birthday has passed, where
    the date of the next year cannot be built. *)
Theorem every_year_birthday_defined_iff b t :
  every_year b -> valid_date t ->
  (is_Some (days_until_birthday b t) <->
   year t < MAXYEAR \/ ~ month_day_lt b t).
Proof.
  intros Hb Ht. pose proof (valid_date_year t Ht) as Hy.
  pose proof (every_year_any_year b (year t) Hb Hy) as Hc. split.
  - intros [n H]. apply days_until_birthday_inv in H as [_ Hcases].
    destruct Hcases as [[Hlt _] | [_ [Hc' _]]].
    + right. intros Hmd. apply date_ltb_month_day in Hmd. congruence.
    + left. apply valid_date_year in Hc'. simpl in Hc'. lia.
  - intros Hor.
    destruct (date_ltb (mkdate (year t) (month b) (day b)) t) eqn:E.
    + eexists. apply days_until_birthday_next_year; [exact Hc | exact E |].
      apply every_year_any_year; [exact Hb |].
      destruct Hor as [Hlt | Hnot]; [unfold MINYEAR in *; lia |].
      apply date_ltb_month_day in E. contradiction.
    + eexists. apply days_until_birthday_same_year; assumption.
Qed.

Lemma every_year_birthday_defined_iff_witness :
  is_Some (days_until_birthday (mkdate 1990 3 15) (mkdate 9999 6 1)) <->
  9999 < MAXYEAR \/ ~ month_day_lt (mkdate 1990 3 15) (mkdate 9999 6 1).
Proof.
  apply (every_year_birthday_defined_iff (mkdate 1990 3 15) (mkdate 9999 6 1)).
  - split; [reflexivity |]. simpl. lia.
  - reflexivity.
Defined.

Section DayByDay.

Lemma valid_of_wf d :
  wf_date d -> MINYEAR <= year d <= MAXYEAR -> valid_date d.
Proof.
  unfold wf_date, valid_date. rewrite check_date_fields_iff. tauto.
Qed.

Lemma tomorrow_year d :
  year (tomorrow d) = year d \/ tomorrow d = mkdate (year d + 1) 1 1.
Proof.
  unfold tomorrow.
  destruct (day d <? days_in_month (year d) (month d)); [left; reflexivity |].
  destruct (month d <? 12); [left; reflexivity | right; reflexivity].
Qed.

Lemma toordinal_le_not_ltb a b :
  wf_date a -> wf_date b -> toordinal a <= toordinal b ->
  date_ltb b a = false.
Proof.
  intros Ha Hb Hle. destruct (date_ltb b a) eqn:E; [| reflexivity].
  pose proof (toordinal_lt b a Hb Ha E). lia.
Qed.

Lemma toordinal_lt_ltb a b :
  wf_date a -> wf_date b -> toordinal a < toordinal b ->
  date_ltb a b = true.
Proof.
  intros Ha Hb Hlt.
  destruct (date_trichotomy a b) as [H | [-> | H]]; [exact H | lia |].
  pose proof (toordinal_lt b a Hb Ha H). lia.
Qed.

Lemma date_ltb_year a b : date_ltb a b = true -> year a <= year b.
Proof.
  unfold date_ltb. rewrite orb_true_iff, andb_true_iff, Z.ltb_lt, Z.eqb_eq.
  lia.
Qed.

Lemma first_of_january_not_after y m d :
  1 <= m -> 1 <= d -> date_ltb (mkdate y m d) (mkdate y 1 1) = false.
Proof.
  intros Hm Hd. unfold date_ltb, pair_ltb. simpl.
  rewrite Z.ltb_irrefl, Z.eqb_refl. simpl.
  destruct (Z.ltb_spec m 1), (Z.eqb_spec m 1), (Z.ltb_spec d 1);
    simpl; auto; lia.
Qed.

Lemma calculate_age_cases b t :
  (month_day_lt t b /\ calculate_age b t = year t - year b - 1) \/
  (~ month_day_lt t b /\ calculate_age b t = year t - year b).
Proof.
  unfold calculate_age. pose proof (pair_ltb_month_day t b) as Hiff.
  destruct (pair_ltb (month t, day t) (month b, day b)).
  - left. split; [apply Hiff; reflexivity | reflexivity].
  - right. split; [| reflexivity]. intros H. apply Hiff in H. discriminate.
Qed.

Lemma every_year_day_bound b y :
  every_year b -> 1 <= month b <= 12 /\ 1 <= day b <= days_in_month y (month b).
Proof.
  intros [Hb Hne]. destruct b as [yb mb db]. unfold valid_date in Hb.
  simpl in *. apply check_date_fields_iff in Hb as (_ & Hm & Hd).
  split; [exact Hm |]. unfold days_in_month in *.
  month_cases mb; destruct (is_leap yb), (is_leap y); simpl in *; lia.
Qed.

End DayByDay.

(** X3: the count goes down by one a day: when [days_until_birthday b t]
    returns [n > 0], the day after [t] is a date and
    [days_until_birthday] returns [n - 1] on it. *)
Theorem days_until_birthday_countdown b t n :
  valid_date t -> days_until_birthday b t = Some n -> 0 < n ->
  valid_date (tomorrow t) /\
  days_until_birthday b (tomorrow t) = Some (n - 1).
Proof.
  intros Ht H Hpos.
  pose proof (valid_date_wf t Ht) as Wt.
  pose proof (valid_date_year t Ht) as Hy.
  pose proof (tomorrow_wf t Wt) as Wn.
  pose proof (toordinal_tomorrow t Wt) as Hord.
  apply days_until_birthday_inv in H as [Hc [[Hlt Hn] | [Hlt [Hc' Hn]]]].
  - pose proof (valid_date_wf _ Hc) as Wc.
    unfold sub_days in Hn.
    assert (date_ltb (mkdate (year t) (month b) (day b)) (tomorrow t) = false)
      as Hnlt by (apply toordinal_le_not_ltb; auto; lia).
    assert (year (tomorrow t) = year t) as Hyear.
    { destruct (tomorrow_year t) as [E | E]; [exact E |].
      rewrite E in Hnlt. unfold date_ltb in Hnlt. simpl in Hnlt.
      destruct (Z.ltb_spec (year t) (year t + 1)); [discriminate | lia]. }
    split; [apply valid_of_wf; [exact Wn | lia] |].
    pose proof (days_until_birthday_same_year b (tomorrow t)) as Hs.
    simpl in Hs. rewrite Hyear in Hs. rewrite (Hs Hc Hnlt).
    unfold sub_days. f_equal. lia.
  - pose proof (valid_date_wf _ Hc) as Wc.
    pose proof (valid_date_wf _ Hc') as Wc'.
    pose proof (valid_date_year _ Hc') as Hy'. simpl in Hy'.
    pose proof (toordinal_lt _ t Wc Wt Hlt) as Hct.
    unfold sub_days in Hn.
    destruct (tomorrow_year t) as [Hyear | E].
    + split; [apply valid_of_wf; [exact Wn | lia] |].
      pose proof (days_until_birthday_next_year b (tomorrow t)) as Hs.
      simpl in Hs. rewrite Hyear in Hs. rewrite Hs.
      * unfold sub_days. f_equal. lia.
      * exact Hc.
      * apply toordinal_lt_ltb; auto; lia.
      * exact Hc'.
    + split; [apply valid_of_wf; [exact Wn | rewrite E; simpl; lia] |].
      pose proof (days_until_birthday_same_year b (tomorrow t)) as Hs.
      rewrite E in Hs |- *. simpl in Hs. rewrite Hs.
      * unfold sub_days. rewrite E in Hord. f_equal. lia.
      * exact Hc'.
      * destruct Wc' as [Wm Wd]. simpl in Wm, Wd.
        apply first_of_january_not_after; lia.
Qed.

Lemma days_until_birthday_countdown_witness :
  valid_date (tomorrow (mkdate 2023 12 30)) /\
  days_until_birthday (mkdate 1990 1 1) (tomorrow (mkdate 2023 12 30)) =
  Some (2 - 1).
Proof.
  apply (days_until_birthday_countdown (mkdate 1990 1 1) (mkdate 2023 12 30) 2);
    [reflexivity | reflexivity | lia].
Defined.

(** X4: for a birth date other than a 29th of February, the age goes up
    by one from a day to the next exactly when the next day has the month
    and day of the birth date, and stays the same otherwise. *)
Theorem calculate_age_next_day b t :
  every_year b -> valid_date t ->
  (month (tomorrow t) = month b /\ day (tomorrow t) = day b ->
   calculate_age b (tomorrow t) = calculate_age b t + 1) /\
  (~ (month (tomorrow t) = month b /\ day (tomorrow t) = day b) ->
   calculate_age b (tomorrow t) = calculate_age b t).
Proof.
  intros Hb Ht.
  pose proof (every_year_day_bound b (year t) Hb) as [Hbm Hbd].
  destruct (valid_date_wf t Ht) as [Wm Wd].
  assert (month t = month b ->
          days_in_month (year t) (month t) = days_in_month (year t) (month b))
    as Hsame by (intros ->; reflexivity).
  destruct (calculate_age_cases b t) as [[Ht1 ->] | [Ht1 ->]];
    destruct (calculate_age_cases b (tomorrow t)) as [[Ht2 ->] | [Ht2 ->]];
    unfold month_day_lt in *; revert Ht2; unfold tomorrow;
    destruct (Z.ltb_spec (day t) (days_in_month (year t) (month t)));
    try destruct (Z.ltb_spec (month t) 12); simpl; intros Ht2;
    assert (days_in_month (year t) 12 = 31) as H12 by reflexivity;
    split; intros Hmd; try lia;
    try (exfalso; apply Hmd; split; lia);
    try (assert (month t = 12) as E12 by lia; rewrite E12 in *; lia).
Qed.

Lemma calculate_age_next_day_witness :
  (month (tomorrow (mkdate 2024 2 29)) = month (mkdate 1990 3 1) /\
   day (tomorrow (mkdate 2024 2 29)) = day (mkdate 1990 3 1) ->
   calculate_age (mkdate 1990 3 1) (tomorrow (mkdate 2024 2 29)) =
   calculate_age (mkdate 1990 3 1) (mkdate 2024 2 29) + 1) /\
  (~ (month (tomorrow (mkdate 2024 2 29)) = month (mkdate 1990 3 1) /\
      day (tomorrow (mkdate 2024 2 29)) = day (mkdate 1990 3 1)) ->
   calculate_age (mkdate 1990 3 1) (tomorrow (mkdate 2024 2 29)) =
   calculate_age (mkdate 1990 3 1) (mkdate 2024 2 29)).
Proof.
  apply (calculate_age_next_day (mkdate 1990 3 1) (mkdate 2024 2 29)).
  - split; [reflexivity |]. simpl. lia.
  - reflexivity.
Defined.

(** X5: for a birth date on a 29th of February, the age goes up by one
    from a day to the next exactly when the next day is a 29th of
    February, or the 1st of March of a year that is not a leap year; on
    every other day it stays the same. *)
Theorem leap_day_age_next_day b t :
  month b = 2 -> day b = 29 -> valid_date t ->
  let t' := tomorrow t in
  let turns :=
    (month t' = 2 /\ day t' = 29) \/
    (month t' = 3 /\ day t' = 1 /\ is_leap (year t') = false) in
  (turns -> calculate_age b t' = calculate_age b t + 1) /\
  (~ turns -> calculate_age b t' = calculate_age b t).
Proof.
  intros Hm Hd Ht t' turns. subst t' turns.
  destruct (valid_date_wf t Ht) as [Wm Wd].
  assert (month t = 2 ->
          days_in_month (year t) (month t) =
          if is_leap (year t) then 29 else 28) as Hfeb.
  { intros ->. unfold days_in_month. simpl.
    destruct (is_leap (year t)); reflexivity. }
  assert (month t <> 2 -> 30 <= days_in_month (year t) (month t)) as Hlong.
  { intros Hne. unfold days_in_month.
    destruct t as [y m d]. simpl in *.
    month_cases m; simpl; try lia. }
  destruct (calculate_age_cases b t) as [[Ht1 ->] | [Ht1 ->]];
    destruct (calculate_age_cases b (tomorrow t)) as [[Ht2 ->] | [Ht2 ->]];
    unfold month_day_lt in *; rewrite Hm, Hd in *;
    revert Ht2; unfold tomorrow;
    destruct (Z.ltb_spec (day t) (days_in_month (year t) (month t)));
    try destruct (Z.ltb_spec (month t) 12); simpl; intros Ht2;
    destruct (is_leap (year t)) eqn:Eleap;
    split; intros Hturn; try lia;
    try (exfalso; apply Hturn; lia);
    try (destruct Hturn as [[? ?] | [? [? ?]]]; try discriminate; lia).
Qed.

Lemma leap_day_age_next_day_witness :
  let b := mkdate 2000 2 29 in
  let t' := tomorrow (mkdate 2023 2 28) in
  let turns :=
    (month t' = 2 /\ day t' = 29) \/
    (month t' = 3 /\ day t' = 1 /\ is_leap (year t') = false) in
  (turns -> calculate_age b t' = calculate_age b (mkdate 2023 2 28) + 1) /\
  (~ turns -> calculate_age b t' = calculate_age b (mkdate 2023 2 28)).
Proof.
  apply (leap_day_age_next_day (mkdate 2000 2 29) (mkdate 2023 2 28));
    reflexivity.
Defined.

(** ** More on the table *)

Section TableFacts.

Lemma leap_day_raises b t :
  month b = 2 -> day b = 29 -> is_leap (year t) = false ->
  days_until_birthday b t = None.
Proof.
  intros Hm Hd Hleap.
  destruct (days_until_birthday b t) as [n |] eqn:E; [| reflexivity].
  apply days_until_birthday_inv in E as [Hc _].
  rewrite Hm, Hd in Hc. apply leap_day_valid_iff in Hc as [_ Hc]. congruence.
Qed.

Lemma every_year_returns b t :
  every_year b -> valid_date t -> year t < MAXYEAR ->
  is_Some (days_until_birthday b t).
Proof.
  intros Hb Ht Hlt. pose proof (valid_date_year t Ht) as Hy.
  pose proof (every_year_any_year b (year t) Hb Hy) as Hc.
  destruct (date_ltb (mkdate (year t) (month b) (day b)) t) eqn:E.
  - eexists. apply days_until_birthday_next_year; [exact Hc | exact E |].
    apply every_year_any_year; [exact Hb | unfold MINYEAR in *; lia].
  - eexists. apply days_until_birthday_same_year; assumption.
Qed.

Lemma filter_id_absent (l : list Row.t) i :
  i ∉ Row.id <$> l -> filter (fun r => Row.id r <> i) l = l.
Proof.
  induction l as [| r l IH]; [reflexivity |]. rewrite fmap_cons.
  intros Hnin. apply not_elem_of_cons in Hnin as [Hne Hnin].
  rewrite filter_cons_True by congruence. f_equal. apply IH, Hnin.
Qed.

Lemma ids_below_counter db i :
  ids_fresh db -> autoincrement db < i -> i ∉ Row.id <$> rows db.
Proof.
  intros [_ Hle] Hlt Hin.
  apply list_elem_of_fmap in Hin as (r & -> & Hr).
  rewrite Forall_forall in Hle. specialize (Hle r Hr). lia.
Qed.

End TableFacts.

(** X6: [add_person] and [delete_person] keep the ids of the table
    distinct and at most the AUTOINCREMENT counter; the id given to a new
    row is one that no row of the table has. *)
Theorem ids_stay_fresh db name birthday_date user_id person_id :
  ids_fresh db ->
  ids_fresh (add_person db name birthday_date user_id).1 /\
  ids_fresh (delete_person db person_id).1 /\
  (autoincrement db + 1) ∉ (Row.id <$> rows db).
Proof.
  intros Hfresh. pose proof Hfresh as [Hnd Hle].
  assert ((autoincrement db + 1) ∉ Row.id <$> rows db) as Hnew
      by (apply ids_below_counter; [exact Hfresh | lia]).
  split; [| split; [| exact Hnew]].
  - destruct name as [n |]; simpl; [| exact Hfresh].
    destruct (fits_int64 user_id); [| exact Hfresh]. split; simpl.
    + rewrite fmap_app. apply NoDup_app. split; [exact Hnd |].
      split; [| apply NoDup_singleton].
      intros x Hx Hx'. apply list_elem_of_singleton in Hx'. subst x.
      contradiction.
    + apply Forall_app. split.
      * eapply Forall_impl; [exact Hle |]. simpl. intros r Hr. lia.
      * apply Forall_singleton. simpl. lia.
  - unfold delete_person.
    destruct (fits_int64 person_id); [| exact Hfresh]. split; simpl.
    + apply (NoDup_fmap_2_strong Row.id).
      * intros x y Hx Hy Heq.
        apply list_elem_of_filter in Hx as [_ Hx].
        apply list_elem_of_filter in Hy as [_ Hy].
        apply list_elem_of_lookup in Hx as [i Hi].
        apply list_elem_of_lookup in Hy as [j Hj].
        assert (i = j) as ->.
        { eapply NoDup_lookup; [exact Hnd | |];
            rewrite list_lookup_fmap; [rewrite Hi | rewrite Hj]; simpl;
            [reflexivity | congruence]. }
        congruence.
      * apply NoDup_filter. eapply NoDup_fmap_1, Hnd.
    + apply Forall_forall. intros r Hr.
      apply list_elem_of_filter in Hr as [_ Hr].
      rewrite Forall_forall in Hle. apply Hle, Hr.
Qed.

Lemma ids_stay_fresh_witness :
  ids_fresh (add_person two_people_table (Some "Eve"%string)
               (mkdate 2001 5 5) 9).1 /\
  ids_fresh (delete_person two_people_table 1).1 /\
  (autoincrement two_people_table + 1) ∉ (Row.id <$> rows two_people_table).
Proof.
  apply (ids_stay_fresh two_people_table (Some "Eve"%string)
           (mkdate 2001 5 5) 9 1).
  split; simpl.
  - apply NoDup_cons. split; [| apply NoDup_singleton].
    rewrite list_elem_of_singleton. discriminate.
  - repeat constructor; simpl; lia.
Defined.

(** X7: a person added for an owner is in that owner's next listing, with
    the id taken from the counter, the name, date and owner given, and the
    age and day count the date engine computes for the day of the
    listing. *)
Theorem added_person_is_listed db name birthday_date user_id today people :
  get_all_people (add_person db (Some name) birthday_date user_id).1
    (Some user_id) today = Some people ->
  exists p,
    p ∈ people /\
    Person.id p = autoincrement db + 1 /\
    Person.name p = name /\
    Person.birthday_date p = birthday_date /\
    Person.user_id p = user_id /\
    Person.age p = calculate_age birthday_date today /\
    days_until_birthday birthday_date today = Some (Person.days_until p).
Proof.
  intros H.
  destruct (fits_int64 user_id) eqn:Efit.
  2: { simpl in H. rewrite Efit in H. simpl in H.
       rewrite (get_all_people_overflow _ _ _ Efit) in H. discriminate. }
  destruct (get_all_people_person _ _ _ _
              (Row.mk (autoincrement db + 1) name birthday_date user_id) H)
    as (p & Hp & Hrow).
  - apply elem_of_select_birthdays. simpl. rewrite Efit. simpl.
    split; [| reflexivity].
    apply elem_of_app. right. apply list_elem_of_here.
  - exists p. split; [exact Hp |].
    apply person_of_row_fields in Hrow. simpl in Hrow. exact Hrow.
Qed.

Lemma added_person_is_listed_witness :
  exists p,
    p ∈ [Person.mk 1 "Ann"%string (mkdate 1990 3 15) 7 33 1;
         Person.mk 2 "Bob"%string (mkdate 1985 3 15) 7 38 1;
         Person.mk 3 "Eve"%string (mkdate 2001 5 5) 7 22 52] /\
    Person.id p = autoincrement two_people_table + 1 /\
    Person.name p = "Eve"%string /\
    Person.birthday_date p = mkdate 2001 5 5 /\
    Person.user_id p = 7 /\
    Person.age p = calculate_age (mkdate 2001 5 5) (mkdate 2024 3 14) /\
    days_until_birthday (mkdate 2001 5 5) (mkdate 2024 3 14) =
      Some (Person.days_until p).
Proof.
  apply (added_person_is_listed two_people_table "Eve"%string
           (mkdate 2001 5 5) 7 (mkdate 2024 3 14)).
  vm_compute. reflexivity.
Defined.

(** X8: adding a person for one owner leaves the listing of every other
    (non-zero) owner as it was. *)
Theorem add_person_leaves_other_owners db name birthday_date user_id other today :
  other <> 0 -> other <> user_id ->
  get_all_people (add_person db name birthday_date user_id).1
    (Some other) today =
  get_all_people db (Some other) today.
Proof.
  intros H0 Hne. destruct name as [n |]; [| reflexivity]. simpl.
  destruct (fits_int64 user_id); [| reflexivity].
  unfold get_all_people, execute_select.
  destruct (truthy (Some other) && negb (fits_int64 other)); [reflexivity |].
  rewrite !select_birthdays_owner by exact H0.
  simpl. rewrite filter_app, filter_cons_False by (simpl; congruence).
  rewrite filter_nil, app_nil_r. reflexivity.
Qed.

Lemma add_person_leaves_other_owners_witness :
  get_all_people (add_person two_people_table (Some "Eve"%string)
                    (mkdate 2001 5 5) 9).1 (Some 7) (mkdate 2024 3 14) =
  get_all_people two_people_table (Some 7) (mkdate 2024 3 14).
Proof.
  apply (add_person_leaves_other_owners two_people_table (Some "Eve"%string)
           (mkdate 2001 5 5) 9 7 (mkdate 2024 3 14)); discriminate.
Defined.

(** X9: in a table whose ids are ones SQLite can hold, after
    [delete_person db i] no listing, of any owner or system-wide, holds a
    person with the id [i]. *)
Theorem deleted_person_is_not_listed db person_id user_id today people :
  ids_storable db ->
  get_all_people (delete_person db person_id).1 user_id today = Some people ->
  forall p, p ∈ people -> Person.id p <> person_id.
Proof.
  intros Hfit H p Hp.
  destruct (get_all_people_row _ _ _ _ p H Hp) as (r & Hr & Hrow).
  apply elem_of_select_birthdays in Hr as [Hr _].
  apply person_of_row_fields in Hrow as (-> & _).
  unfold delete_person in Hr.
  destruct (fits_int64 person_id) eqn:Efit; simpl in Hr.
  - apply list_elem_of_filter in Hr as [Hne _]. exact Hne.
  - unfold ids_storable in Hfit. rewrite Forall_forall in Hfit.
    specialize (Hfit r Hr). congruence.
Qed.

Lemma deleted_person_is_not_listed_witness :
  get_all_people (delete_person two_people_table 1).1 (Some 7)
    (mkdate 2024 3 14) =
    Some [Person.mk 2 "Bob"%string (mkdate 1985 3 15) 7 38 1] /\
  Person.id (Person.mk 2 "Bob"%string (mkdate 1985 3 15) 7 38 1) <> 1.
Proof.
  split; [vm_compute; reflexivity |].
  apply (deleted_person_is_not_listed two_people_table 1 (Some 7)
           (mkdate 2024 3 14)
           [Person.mk 2 "Bob"%string (mkdate 1985 3 15) 7 38 1]).
  - repeat constructor.
  - vm_compute. reflexivity.
  - apply list_elem_of_here.
Defined.

(** X10: deleting an id that no row has leaves the table as it was; the
    method reports success when the id can be bound, and failure when it
    cannot (an integer outside the signed 64-bit range). *)
Theorem delete_person_missing_id db person_id :
  person_id ∉ (Row.id <$> rows db) ->
  delete_person db person_id = (db, fits_int64 person_id).
Proof.
  intros Hnin. unfold delete_person.
  destruct (fits_int64 person_id); [| reflexivity].
  rewrite (filter_id_absent _ _ Hnin). destruct db; reflexivity.
Qed.

Lemma delete_person_missing_id_witness :
  delete_person two_people_table (2 ^ 63) =
  (two_people_table, fits_int64 (2 ^ 63)).
Proof.
  apply (delete_person_missing_id two_people_table (2 ^ 63)).
  simpl. rewrite !elem_of_cons, elem_of_nil. intros [H | [H | []]];
    discriminate.
Defined.

(** X11: in a table with distinct ids, none above the counter, adding a
    person for an owner that can be bound and then deleting the id the
    person was given (when that id can be bound) both succeed and give
    back the rows the table had. *)
Theorem add_then_delete db name birthday_date user_id :
  ids_fresh db ->
  fits_int64 user_id = true ->
  fits_int64 (autoincrement db + 1) = true ->
  let added := add_person db (Some name) birthday_date user_id in
  let deleted := delete_person added.1 (autoincrement db + 1) in
  added.2 = true /\
  rows added.1 =
    rows db ++ [Row.mk (autoincrement db + 1) name birthday_date user_id] /\
  deleted.2 = true /\
  rows deleted.1 = rows db.
Proof.
  intros Hfresh Hu Hi added deleted. subst deleted added.
  unfold add_person, delete_person. rewrite Hu. simpl. rewrite Hi. simpl.
  split; [reflexivity |]. split; [reflexivity |]. split; [reflexivity |].
  rewrite filter_app.
  rewrite filter_cons_False by (simpl; intros H; apply H; reflexivity).
  rewrite filter_nil, app_nil_r. apply filter_id_absent.
  apply ids_below_counter; [exact Hfresh | lia].
Qed.

Lemma add_then_delete_witness :
  let added :=
    add_person two_people_table (Some "Eve"%string) (mkdate 2001 5 5) 9 in
  let deleted := delete_person added.1 (autoincrement two_people_table + 1) in
  added.2 = true /\
  rows added.1 =
    rows two_people_table ++
    [Row.mk (autoincrement two_people_table + 1) "Eve"%string
       (mkdate 2001 5 5) 9] /\
  deleted.2 = true /\
  rows deleted.1 = rows two_people_table.
Proof.
  apply (add_then_delete two_people_table "Eve"%string (mkdate 2001 5 5) 9).
  - split; simpl.
    + apply NoDup_cons. split; [| apply NoDup_singleton].
      rewrite list_elem_of_singleton. discriminate.
    + repeat constructor; simpl; lia.
  - reflexivity.
  - reflexivity.
Defined.

(** X12: one row with a birth date on a 29th of February makes the
    listing raise as a whole on every day of a year that is not a leap
    year: the system-wide listing and the listing of the row's owner
    return nothing, whatever the other rows are. *)
Theorem leap_day_row_breaks_listing db today r :
  r ∈ rows db ->
  month (Row.birthday_date r) = 2 -> day (Row.birthday_date r) = 29 ->
  is_leap (year today) = false ->
  get_all_people db None today = None /\
  get_all_people db (Some (Row.user_id r)) today = None.
Proof.
  intros Hr Hm Hd Hleap.
  assert (person_of_row today r = None) as Hnone.
  { unfold person_of_row. rewrite (leap_day_raises _ _ Hm Hd Hleap).
    reflexivity. }
  assert (forall user_id,
            r ∈ select_birthdays db user_id ->
            get_all_people db user_id today = None) as Hall.
  { intros user_id Hsel.
    destruct (get_all_people db user_id today) as [people |] eqn:E;
      [| reflexivity].
    destruct (get_all_people_person _ _ _ _ r E Hsel) as (p & _ & Hp).
    congruence. }
  split; apply Hall; apply elem_of_select_birthdays; auto.
  split; [exact Hr | discriminate].
Qed.

Lemma leap_day_row_breaks_listing_witness :
  let table := mkdb [Row.mk 1 "Ann"%string (mkdate 1990 3 15) 7;
                     Row.mk 2 "Leo"%string (mkdate 2000 2 29) 8] 2 in
  get_all_people table None (mkdate 2023 3 14) = None /\
  get_all_people table (Some 8) (mkdate 2023 3 14) = None.
Proof.
  apply (leap_day_row_breaks_listing
           (mkdb [Row.mk 1 "Ann"%string (mkdate 1990 3 15) 7;
                  Row.mk 2 "Leo"%string (mkdate 2000 2 29) 8] 2)
           (mkdate 2023 3 14) (Row.mk 2 "Leo"%string (mkdate 2000 2 29) 8));
    try reflexivity.
  apply list_elem_of_further, list_elem_of_here.
Defined.

(** X13: when no row has a birth date on a 29th of February, the current
    year is before 9999 and the owner, if one is given, is 0 or can be
    bound, the listing returns, with one person per selected row; for an
    owner that cannot be bound it raises. *)
Theorem listing_returns db user_id today :
  Forall (fun r => every_year (Row.birthday_date r)) (rows db) ->
  valid_date today -> year today < MAXYEAR ->
  (forall u, user_id = Some u -> fits_int64 u = false ->
             get_all_people db user_id today = None) /\
  ((forall u, user_id = Some u -> u = 0 \/ fits_int64 u = true) ->
  exists people,
    get_all_people db user_id today = Some people /\
    length people = length (select_birthdays db user_id)).
Proof.
  intros Hrows Ht Hy. split.
  { intros u -> Hu. apply get_all_people_overflow, Hu. }
  intros Hbound.
  pose proof (get_all_people_bound db user_id today Hbound) as Hmap.
  assert (is_Some (get_all_people db user_id today)) as [people Hp].
  { rewrite Hmap. apply mapM_is_Some_2, Forall_forall.
    intros r Hr. apply elem_of_select_birthdays in Hr as [Hr _].
    rewrite Forall_forall in Hrows.
    destruct (every_year_returns _ today (Hrows r Hr) Ht Hy) as [n Hn].
    unfold compose, person_of_row. rewrite Hn. simpl. eexists. reflexivity. }
  exists people. split; [exact Hp |].
  rewrite Hmap in Hp. symmetry. eapply length_mapM, Hp.
Qed.

Lemma listing_returns_witness :
  (forall u, Some 7 = Some u -> fits_int64 u = false ->
             get_all_people two_people_table (Some 7) (mkdate 2024 3 14) =
             None) /\
  ((forall u, Some 7 = Some u -> u = 0 \/ fits_int64 u = true) ->
   exists people,
     get_all_people two_people_table (Some 7) (mkdate 2024 3 14) =
       Some people /\
     length people =
     length (select_birthdays two_people_table (Some 7))).
Proof.
  apply (listing_returns two_people_table (Some 7) (mkdate 2024 3 14)).
  - repeat constructor; simpl; try reflexivity; lia.
  - reflexivity.
  - reflexivity.
Defined.

(** X14: when [get_user_ids_with_birthdays_today] returns, its result has
    no duplicates and holds exactly the owners of the listed people whose
    day count is 0. *)
Theorem user_ids_with_birthdays_today db today ids :
  get_user_ids_with_birthdays_today db today = Some ids ->
  NoDup ids /\
  exists everyone,
    get_all_people db None today = Some everyone /\
    forall u,
      u ∈ ids <->
      exists p, p ∈ everyone /\ Person.days_until p = 0 /\
                Person.user_id p = u.
Proof.
  unfold get_user_ids_with_birthdays_today, get_people_with_birthday_in_days.
  destruct (get_all_people db None today) as [everyone |]; simpl;
    [| discriminate].
  intros [= <-]. split; [apply NoDup_elements |].
  exists everyone. split; [reflexivity |].
  intros u. rewrite elem_of_elements, elem_of_list_to_set, list_elem_of_fmap.
  split.
  - intros (p & -> & Hp). apply list_elem_of_filter in Hp as [H0 Hp].
    exists p. auto.
  - intros (p & Hp & H0 & <-). exists p. split; [reflexivity |].
    apply list_elem_of_filter. auto.
Qed.

Lemma user_ids_with_birthdays_today_witness :
  NoDup [7] /\
  exists everyone,
    get_all_people two_people_table None (mkdate 2024 3 15) = Some everyone /\
    forall u,
      u ∈ [7] <->
      exists p, p ∈ everyone /\ Person.days_until p = 0 /\
                Person.user_id p = u.
Proof.
  apply (user_ids_with_birthdays_today two_people_table (mkdate 2024 3 15)).
  unfold get_user_ids_with_birthdays_today.
  replace (get_people_with_birthday_in_days _ 0 (mkdate 2024 3 15))
    with (Some [Person.mk 1 "Ann"%string (mkdate 1990 3 15) 7 34 0;
                Person.mk 2 "Bob"%string (mkdate 1985 3 15) 7 39 0])
    by (vm_compute; reflexivity).
  reflexivity.
Defined.

(** ** More on the reminder pass *)

Section PassFacts.

Variable World : Type.
Variable send_message : World -> Z -> reminder -> World * bool.

(** One pass, whether the fetch returns or raises. *)
Lemma tick_total_summary db today active (w : World) :
  let s' := send_birthday_reminders_tick send_message db today active w in
  (forall v, attempted_for v (ts_log s') =
             if decide (v ∈ active) then due_for v db today else []) /\
  (forall v, v ∈ ts_active s' <-> v ∈ active /\ ~ failed_for v (ts_log s')).
Proof.
  intros s'. subst s'. unfold due_for.
  destruct (get_people_with_birthday_in_days db 1 today) as [people |] eqn:E.
  - apply (tick_summary World send_message db today active w people E).
  - rewrite (tick_no_people World send_message db today active w E). simpl.
    split.
    + intros v. case_decide; reflexivity.
    + intros v. split; [| tauto].
      intros Hv. split; [exact Hv |]. intros [p Hp]. inversion Hp.
Qed.

End PassFacts.

(** X15: while the table holds one row with a birth date on a 29th of
    February, a pass on any day of a year that is not a leap year sends
    nothing to anyone: the fetch raises, the log is empty and the
    reachability set is as it was. *)
Theorem leap_day_row_silences_pass (World : Type)
    (send_message : World -> Z -> reminder -> World * bool)
    db today active (w : World) r :
  r ∈ rows db ->
  month (Row.birthday_date r) = 2 -> day (Row.birthday_date r) = 29 ->
  is_leap (year today) = false ->
  send_birthday_reminders_tick send_message db today active w =
  mktick active w [].
Proof.
  intros Hr Hm Hd Hleap. apply tick_no_people.
  unfold get_people_with_birthday_in_days.
  assert (get_all_people db None today = None) as ->; [| reflexivity].
  destruct (get_all_people db None today) as [people |] eqn:E;
    [| reflexivity].
  destruct (get_all_people_person _ _ _ _ r E) as (p & _ & Hp).
  - apply elem_of_select_birthdays. split; [exact Hr | discriminate].
  - unfold person_of_row in Hp.
    rewrite (leap_day_raises _ _ Hm Hd Hleap) in Hp. discriminate.
Qed.

Lemma leap_day_row_silences_pass_witness :
  send_birthday_reminders_tick always_delivers
    (mkdb [Row.mk 1 "Ann"%string (mkdate 1990 3 15) 7;
           Row.mk 2 "Leo"%string (mkdate 2000 2 29) 8] 2)
    (mkdate 2023 3 14) {[7]} tt =
  mktick {[7]} tt [].
Proof.
  apply (leap_day_row_silences_pass unit always_delivers
           (mkdb [Row.mk 1 "Ann"%string (mkdate 1990 3 15) 7;
                  Row.mk 2 "Leo"%string (mkdate 2000 2 29) 8] 2)
           (mkdate 2023 3 14) {[7]} tt
           (Row.mk 2 "Leo"%string (mkdate 2000 2 29) 8));
    try reflexivity.
  apply list_elem_of_further, list_elem_of_here.
Defined.

(** X16: an owner to whom a delivery failed in a pass is attempted for
    nobody in the pass that follows it, whatever the table and the day of
    that pass, as long as no handler has put the owner back. *)
Theorem evicted_owner_is_skipped (World : Type)
    (send_message : World -> Z -> reminder -> World * bool)
    db today db' today' active (w : World) u :
  let s1 := send_birthday_reminders_tick send_message db today active w in
  let s2 :=
    send_birthday_reminders_tick send_message db' today'
      (ts_active s1) (ts_world s1) in
  failed_for u (ts_log s1) ->
  attempted_for u (ts_log s2) = [].
Proof.
  intros s1 s2 Hfail.
  destruct (tick_total_summary World send_message db today active w)
    as [_ Hact1]. fold s1 in Hact1.
  destruct (tick_total_summary World send_message db' today'
              (ts_active s1) (ts_world s1)) as [Hatt2 _]. fold s2 in Hatt2.
  rewrite Hatt2. rewrite decide_False; [reflexivity |].
  rewrite Hact1. tauto.
Qed.

Lemma evicted_owner_is_skipped_witness :
  let s1 :=
    send_birthday_reminders_tick always_fails two_people_table
      (mkdate 2024 3 14) {[7]} tt in
  let s2 :=
    send_birthday_reminders_tick always_fails two_people_table
      (mkdate 2024 3 14) (ts_active s1) (ts_world s1) in
  attempted_for 7 (ts_log s2) = [].
Proof.
  apply (evicted_owner_is_skipped unit always_fails two_people_table
           (mkdate 2024 3 14) two_people_table (mkdate 2024 3 14) {[7]} tt 7).
  rewrite two_people_pass_log. eexists. apply list_elem_of_here.
Defined.

(** X17: nothing records what was sent: when no delivery to an owner
    failed in a pass, the pass that follows it on the same table and day,
    with no handler run in between, attempts the same people for that
    owner once more; both logs are records of calls of [send_message],
    the second pass calling it on the world the first one left. *)
Theorem reminders_repeat_every_pass (World : Type)
    (send_message : World -> Z -> reminder -> World * bool)
    db today active (w : World) u :
  let s1 := send_birthday_reminders_tick send_message db today active w in
  let s2 :=
    send_birthday_reminders_tick send_message db today
      (ts_active s1) (ts_world s1) in
  ~ failed_for u (ts_log s1) ->
  attempted_for u (ts_log s2) = attempted_for u (ts_log s1) /\
  pass_trace send_message active w (ts_log s1) (ts_active s1) (ts_world s1) /\
  pass_trace send_message (ts_active s1) (ts_world s1) (ts_log s2)
    (ts_active s2) (ts_world s2).
Proof.
  intros s1 s2 Hok.
  split; [| split; [apply tick_pass_trace | apply tick_pass_trace]].
  destruct (tick_total_summary World send_message db today active w)
    as [Hatt1 Hact1]. fold s1 in Hatt1, Hact1.
  destruct (tick_total_summary World send_message db today
              (ts_active s1) (ts_world s1)) as [Hatt2 _]. fold s2 in Hatt2.
  rewrite Hatt2, Hatt1.
  destruct (decide (u ∈ active)) as [Hin | Hnin].
  - rewrite decide_True; [reflexivity |]. rewrite Hact1. tauto.
  - rewrite decide_False; [reflexivity |]. rewrite Hact1. tauto.
Qed.

Lemma reminders_repeat_every_pass_witness :
  let s1 :=
    send_birthday_reminders_tick always_delivers one_person_table
      (mkdate 2024 3 14) {[7]} tt in
  let s2 :=
    send_birthday_reminders_tick always_delivers one_person_table
      (mkdate 2024 3 14) (ts_active s1) (ts_world s1) in
  attempted_for 7 (ts_log s2) = attempted_for 7 (ts_log s1) /\
  pass_trace always_delivers {[7]} tt (ts_log s1) (ts_active s1)
    (ts_world s1) /\
  pass_trace always_delivers (ts_active s1) (ts_world s1) (ts_log s2)
    (ts_active s2) (ts_world s2).
Proof.
  apply (reminders_repeat_every_pass unit always_delivers one_person_table
           (mkdate 2024 3 14) {[7]} tt 7).
  destruct scenario_D as [Hlog _]. rewrite Hlog.
  intros [p Hp]. apply list_elem_of_singleton in Hp. discriminate.
Defined.

(** ** The handlers *)

Section HandlerFacts.

Variable strip : string -> string.
Variable len : string -> Z.
Variable strptime_dmy : string -> option date.

(** What [process_date] does to the table: nothing, or one row appended
    for the sender, with a date that is not after [today]. *)
Lemma process_date_db today user_id text st :
  db (process_date strptime_dmy today user_id text st) = db st \/
  exists name birthday_date,
    strptime_dmy text = Some birthday_date /\
    date_ltb today birthday_date = false /\
    storage st !! user_id ≫= fsm_name = Some name /\
    db (process_date strptime_dmy today user_id text st) =
    mkdb (rows (db st) ++
          [Row.mk (autoincrement (db st) + 1) name birthday_date user_id])
      (autoincrement (db st) + 1).
Proof.
  unfold process_date. simpl.
  destruct (strptime_dmy text) as [bd |] eqn:Ep; [| left; reflexivity].
  destruct (date_ltb today bd) eqn:Ef; [left; reflexivity |].
  destruct (storage st !! user_id ≫= fsm_name) as [n |] eqn:En;
    simpl; [| left; reflexivity].
  destruct (fits_int64 user_id); simpl; [| left; reflexivity].
  right. exists n, bd.
  split; [reflexivity |]. split; [exact Ef |]. split; [reflexivity |].
  destruct (days_until_birthday bd today); reflexivity.
Qed.

Lemma process_date_active today user_id text st :
  active_users (process_date strptime_dmy today user_id text st) =
  {[user_id]} ∪ active_users st.
Proof.
  unfold process_date. simpl.
  destruct (strptime_dmy text) as [bd |]; [| reflexivity].
  destruct (date_ltb today bd); [reflexivity |].
  destruct (add_person _ _ _ _) as [db' [|]]; simpl; [| reflexivity].
  destruct (days_until_birthday bd today); reflexivity.
Qed.

Lemma process_date_storage today user_id text st v :
  v <> user_id ->
  storage (process_date strptime_dmy today user_id text st) !! v =
  storage st !! v.
Proof.
  intros Hne. unfold process_date. simpl.
  destruct (strptime_dmy text) as [bd |]; [| reflexivity].
  destruct (date_ltb today bd); [reflexivity |].
  destruct (add_person _ _ _ _) as [db' [|]]; simpl.
  - destruct (days_until_birthday bd today); simpl; [| reflexivity].
    apply lookup_insert_ne. congruence.
  - apply lookup_insert_ne. congruence.
Qed.

Lemma delete_person_rows db i r :
  r ∈ rows (delete_person db i).1 ->
  r ∈ rows db /\ (fits_int64 i = true -> Row.id r <> i).
Proof.
  unfold delete_person. destruct (fits_int64 i); simpl.
  - intros Hr. apply list_elem_of_filter in Hr as [Hne Hr]. auto.
  - intros Hr. split; [exact Hr | discriminate].
Qed.

Lemma rows_same_id (l : list Row.t) x y :
  NoDup (Row.id <$> l) -> x ∈ l -> y ∈ l -> Row.id x = Row.id y -> x = y.
Proof.
  intros Hnd Hx Hy Heq.
  apply list_elem_of_lookup in Hx as [i Hi].
  apply list_elem_of_lookup in Hy as [j Hj].
  assert (i = j) as ->.
  { eapply NoDup_lookup; [exact Hnd | |];
      rewrite list_lookup_fmap; [rewrite Hi | rewrite Hj]; simpl;
      [reflexivity | congruence]. }
  congruence.
Qed.

Lemma filter_filter_elem {A} (P Q : A -> Prop)
    `{!forall x, Decision (P x), !forall x, Decision (Q x)} (l : list A) :
  (forall x, x ∈ l -> P x -> Q x) ->
  filter P (filter Q l) = filter P l.
Proof.
  induction l as [| a l IH]; intros Himp; [reflexivity |].
  assert (filter P (filter Q l) = filter P l) as IH'
      by (apply IH; intros x Hx; apply Himp, list_elem_of_further, Hx).
  destruct (decide (P a)) as [Hp | Hp].
  - rewrite (filter_cons_True Q) by (apply Himp; [apply list_elem_of_here | exact Hp]).
    rewrite !filter_cons_True by exact Hp. f_equal. exact IH'.
  - rewrite (filter_cons_False P a l) by exact Hp.
    destruct (decide (Q a)) as [Hq | Hq].
    + rewrite (filter_cons_True Q) by exact Hq.
      rewrite (filter_cons_False P) by exact Hp. exact IH'.
    + rewrite (filter_cons_False Q) by exact Hq. exact IH'.
Qed.

(** The person [callback_confirm_delete] finds comes from a row that the
    listing of the user selected. *)
Lemma found_person_row today user_id person_id st people person :
  get_all_people (db st) (Some user_id) today = Some people ->
  head (filter (fun p => Person.id p = person_id) people) = Some person ->
  exists r,
    r ∈ select_birthdays (db st) (Some user_id) /\
    Row.id r = person_id /\ Person.name person = Row.name r.
Proof.
  intros Hall Hhead. apply head_Some_elem_of in Hhead.
  apply list_elem_of_filter in Hhead as [Hid Hin].
  destruct (get_all_people_row _ _ _ _ person Hall Hin) as (r & Hr & Hrow).
  apply person_of_row_fields in Hrow as (Hi & Hn & _).
  exists r. split; [exact Hr |]. split; congruence.
Qed.

Lemma confirm_delete_db today user_id person_id st :
  db (callback_confirm_delete today user_id person_id st).1 = db st \/
  exists r,
    r ∈ select_birthdays (db st) (Some user_id) /\ Row.id r = person_id /\
    db (callback_confirm_delete today user_id person_id st).1 =
    (delete_person (db st) person_id).1.
Proof.
  unfold callback_confirm_delete.
  destruct (get_all_people (db st) (Some user_id) today) as [people |] eqn:E;
    [| left; reflexivity].
  destruct (head (filter _ people)) as [person |] eqn:Eh;
    [| left; reflexivity].
  destruct (found_person_row _ _ _ _ _ _ E Eh) as (r & Hr & Hid & _).
  right. exists r. split; [exact Hr |]. split; [exact Hid |].
  destruct (delete_person (db st) person_id) as [db' [|]]; reflexivity.
Qed.

End HandlerFacts.

Section DialogFacts.

Variable strip : string -> string.
Variable len : string -> Z.
Variable strptime_dmy : string -> option date.

Lemma process_date_storage_cases today user_id text st :
  storage (process_date strptime_dmy today user_id text st) = storage st \/
  storage (process_date strptime_dmy today user_id text st) =
  <[user_id := mkfsm None None]> (storage st).
Proof.
  unfold process_date. simpl.
  destruct (strptime_dmy text) as [bd |]; [| left; reflexivity].
  destruct (date_ltb today bd); [left; reflexivity |].
  destruct (add_person _ _ _ _) as [db' [|]]; simpl.
  - destruct (days_until_birthday bd today); simpl; auto.
  - auto.
Qed.

Lemma process_name_cases user_id text st :
  let name := strip text in
  (name = EmptyString \/ len name < 2) /\
  process_name strip len user_id text st =
    (activate user_id st, Some ScreenNameTooShort)
  \/
  (name <> EmptyString /\ 2 <= len name) /\
  process_name strip len user_id text st =
    (mkbot (db st) ({[user_id]} ∪ active_users st)
       (<[user_id := mkfsm (Some waiting_for_date) (Some name)]> (storage st))
       (answers st),
     Some (ScreenAskDate name)).
Proof.
  intros name. unfold process_name. fold name.
  destruct (String.eqb_spec name EmptyString) as [He | He]; simpl.
  - left. auto.
  - destruct (Z.ltb_spec (len name) 2).
    + left. auto.
    + right. split; [auto |].
      unfold set_state, update_data, get_context, activate. simpl.
      rewrite lookup_insert_eq. simpl. rewrite insert_insert_eq. reflexivity.
Qed.

Lemma handle_db_cases today user_id e st :
  let st' := (handle strip len strptime_dmy today user_id e st).1 in
  db st' = db st \/
  (exists name birthday_date text,
     e = Message PlainText text /\
     fsm_state (get_context user_id st) = Some waiting_for_date /\
     date_ltb today birthday_date = false /\
     storage st !! user_id ≫= fsm_name = Some name /\
     db st' =
     mkdb (rows (db st) ++
           [Row.mk (autoincrement (db st) + 1) name birthday_date user_id])
       (autoincrement (db st) + 1)) \/
  (exists r person_id,
     e = Callback (CallbackDelete person_id) /\
     r ∈ select_birthdays (db st) (Some user_id) /\ Row.id r = person_id /\
     db st' = (delete_person (db st) person_id).1).
Proof.
  intros st'. subst st'. destruct e as [kind text | data]; simpl.
  - destruct kind; simpl; auto.
    destruct (fsm_state (get_context user_id st)) as [[|] |] eqn:Es; simpl;
      auto.
    + destruct (process_name_cases user_id text st) as [[_ ->] | [_ ->]];
        simpl; auto.
    + destruct (process_date_db strptime_dmy today user_id text st)
        as [H | (n & bd & _ & Hf & Hn & H)]; auto.
      right. left. exists n, bd, text. auto.
  - destruct data; simpl; auto.
    + unfold callback_show_list.
      destruct (get_all_people _ _ _) as [[| ? ?] |]; simpl; auto.
    + unfold callback_delete_person.
      destruct (get_all_people _ _ _) as [[| ? ?] |]; simpl; auto.
    + destruct (confirm_delete_db today user_id person_id st)
        as [H | (r & Hr & Hid & H)]; auto.
      right. right. exists r, person_id. auto.
Qed.

Lemma handle_storage_cases today user_id e st :
  let st' := (handle strip len strptime_dmy today user_id e st).1 in
  storage st' = storage st \/
  (exists ctx, storage st' = <[user_id := ctx]> (storage st) /\
               fsm_state ctx <> Some waiting_for_date) \/
  (exists name, storage st' =
     <[user_id := mkfsm (Some waiting_for_date) (Some name)]> (storage st) /\
     name <> EmptyString /\ 2 <= len name).
Proof.
  intros st'. subst st'. destruct e as [kind text | data]; simpl.
  - destruct kind; simpl; auto.
    destruct (fsm_state (get_context user_id st)) as [[|] |]; simpl; auto.
    + destruct (process_name_cases user_id text st)
        as [[_ ->] | [[Hn Hl] ->]]; simpl; auto.
      right. right. eexists. eauto.
    + destruct (process_date_storage_cases today user_id text st)
        as [-> | ->]; auto.
      right. left. eexists. split; [reflexivity |]. discriminate.
  - destruct data; simpl; auto.
    + right. left. eexists. split; [reflexivity |]. discriminate.
    + unfold callback_show_list.
      destruct (get_all_people _ _ _) as [[| ? ?] |]; simpl; auto.
    + unfold callback_delete_person.
      destruct (get_all_people _ _ _) as [[| ? ?] |]; simpl; auto.
    + unfold callback_confirm_delete.
      destruct (get_all_people _ _ _) as [people |]; simpl; auto.
      destruct (head _); simpl; auto.
      destruct (delete_person _ _) as [db' [|]]; simpl; auto.
Qed.

Lemma handle_active_cases today user_id e st :
  let st' := (handle strip len strptime_dmy today user_id e st).1 in
  (active_users st' = {[user_id]} ∪ active_users st) \/
  (active_users st' = active_users st /\ exists data, e = Callback data).
Proof.
  intros st'. subst st'. destruct e as [kind text | data]; simpl.
  - left. destruct kind; simpl; auto.
    destruct (fsm_state (get_context user_id st)) as [[|] |]; simpl; auto.
    + destruct (process_name_cases user_id text st) as [[_ ->] | [_ ->]];
        reflexivity.
    + apply process_date_active.
  - destruct data; simpl; eauto.
    + unfold callback_show_list.
      destruct (get_all_people _ _ _) as [[| ? ?] |]; simpl; auto.
    + unfold callback_delete_person.
      destruct (get_all_people _ _ _) as [[| ? ?] |]; simpl; auto.
    + right. split; [| eauto]. unfold callback_confirm_delete.
      destruct (get_all_people _ _ _) as [people |]; simpl; auto.
      destruct (head _); simpl; auto.
      destruct (delete_person _ _) as [db' [|]]; simpl; auto.
Qed.

End DialogFacts.

(** X18: a birth date on a 29th of February entered, by a sender whose
    identifier can be bound, in a year that is not a leap year is stored,
    and then the day count raises inside the handler: the user is told
    the format is wrong, and the dialog stays where it was, still asking
    for the date. *)
Theorem process_date_leap_day_in_common_year
    (strptime_dmy : string -> option date)
    today user_id text st birthday_date name :
  strptime_dmy text = Some birthday_date ->
  date_ltb today birthday_date = false ->
  month birthday_date = 2 -> day birthday_date = 29 ->
  is_leap (year today) = false ->
  storage st !! user_id ≫= fsm_name = Some name ->
  fits_int64 user_id = true ->
  let st' := process_date strptime_dmy today user_id text st in
  rows (db st') =
    rows (db st) ++
    [Row.mk (autoincrement (db st) + 1) name birthday_date user_id] /\
  storage st' = storage st /\
  answers st' = answers st ++ [(user_id, AnswerBadFormat)].
Proof.
  intros Hp Hf Hm Hd Hleap Hn Hfit. unfold process_date. simpl.
  rewrite Hp, Hf, Hn. simpl. rewrite Hfit. simpl.
  rewrite (leap_day_raises _ _ Hm Hd Hleap). simpl. auto.
Qed.

Lemma process_date_leap_day_in_common_year_witness :
  let st := mkbot (mkdb [] 0) ∅
              {[ 7 := mkfsm (Some waiting_for_date) (Some "Leo"%string) ]} [] in
  let st' := process_date (fun _ => Some (mkdate 2000 2 29))
               (mkdate 2023 3 14) 7 "29.02.2000"%string st in
  rows (db st') =
    rows (db st) ++
    [Row.mk (autoincrement (db st) + 1) "Leo"%string (mkdate 2000 2 29) 7] /\
  storage st' = storage st /\
  answers st' = answers st ++ [(7, AnswerBadFormat)].
Proof.
  apply (process_date_leap_day_in_common_year
           (fun _ => Some (mkdate 2000 2 29)) (mkdate 2023 3 14) 7
           "29.02.2000"%string _ (mkdate 2000 2 29) "Leo"%string);
    reflexivity.
Defined.

(** X19: [process_name] turns down a text that is empty after stripping
    or shorter than two characters: the dialog state and the table stay
    as they were and the user is asked again.  Any other text is kept,
    stripped, as the name, and the dialog moves on to the date. *)
Theorem process_name_contract (strip : string -> string) (len : string -> Z)
    user_id text st :
  let name := strip text in
  let st' := (process_name strip len user_id text st).1 in
  let answer := (process_name strip len user_id text st).2 in
  db st' = db st /\
  (name = EmptyString \/ len name < 2 ->
   storage st' = storage st /\ answer = Some ScreenNameTooShort) /\
  (name <> EmptyString /\ 2 <= len name ->
   get_context user_id st' = mkfsm (Some waiting_for_date) (Some name) /\
   answer = Some (ScreenAskDate name)).
Proof.
  intros name st' answer. subst name st' answer.
  destruct (process_name_cases strip len user_id text st)
    as [[Hbad ->] | [[Hne Hlen] ->]]; simpl.
  - split; [reflexivity |]. split; [auto |].
    intros [Hne Hlen]. destruct Hbad; [contradiction | lia].
  - split; [reflexivity |]. split.
    + intros [He | Hl]; [contradiction | lia].
    + intros _. unfold get_context. simpl. rewrite lookup_insert_eq.
      auto.
Qed.

(** X20: every update keeps the dialog consistent: whoever is asked for
    the date has a name on file that is not empty and has length at least
    2. *)
Theorem handle_keeps_dialog_ok (strip : string -> string) (len : string -> Z)
    (strptime_dmy : string -> option date) today user_id e st :
  dialog_ok len st ->
  dialog_ok len (handle strip len strptime_dmy today user_id e st).1.
Proof.
  intros Hok u ctx Hctx Hstate.
  destruct (handle_storage_cases strip len strptime_dmy today user_id e st)
    as [Hs | [(c & Hs & Hc) | (n & Hs & Hne & Hlen)]];
    simpl in Hs; rewrite Hs in Hctx.
  - eapply Hok; eassumption.
  - destruct (decide (user_id = u)) as [-> | Hneq].
    + rewrite lookup_insert_eq in Hctx. congruence.
    + rewrite lookup_insert_ne in Hctx by exact Hneq.
      eapply Hok; eassumption.
  - destruct (decide (user_id = u)) as [-> | Hneq].
    + rewrite lookup_insert_eq in Hctx. injection Hctx as <-.
      exists n. auto.
    + rewrite lookup_insert_ne in Hctx by exact Hneq.
      eapply Hok; eassumption.
Qed.

Lemma handle_keeps_dialog_ok_witness :
  dialog_ok (fun s => Z.of_nat (String.length s))
    (handle (fun s => s) (fun s => Z.of_nat (String.length s))
       (fun _ => None) (mkdate 2024 3 14) 7
       (Message PlainText "Ann"%string)
       (mkbot (mkdb [] 0) ∅ {[ 7 := mkfsm (Some waiting_for_name) None ]} [])).1.
Proof.
  apply (handle_keeps_dialog_ok (fun s => s)
           (fun s => Z.of_nat (String.length s)) (fun _ => None)).
  intros u ctx Hctx Hstate.
  destruct (decide (u = 7)) as [-> | Hne].
  - simpl in Hctx. rewrite lookup_singleton_eq in Hctx.
    injection Hctx as <-. discriminate.
  - simpl in Hctx. rewrite lookup_singleton_ne in Hctx by congruence.
    discriminate.
Defined.

(** X21: in a consistent dialog, a row an update puts into the table
    belongs to the sender, has a name that is not empty and of length at
    least 2, a birth date that is not after the current date, and the id
    taken from the counter; every other row was there before. *)
Theorem handle_adds_only_checked_rows (strip : string -> string)
    (len : string -> Z) (strptime_dmy : string -> option date)
    today user_id e st r :
  dialog_ok len st ->
  r ∈ rows (db (handle strip len strptime_dmy today user_id e st).1) ->
  r ∈ rows (db st) \/
  (Row.user_id r = user_id /\
   Row.name r <> EmptyString /\ 2 <= len (Row.name r) /\
   date_ltb today (Row.birthday_date r) = false /\
   Row.id r = autoincrement (db st) + 1).
Proof.
  intros Hok Hr.
  destruct (handle_db_cases strip len strptime_dmy today user_id e st)
    as [Hd | [(n & bd & text & _ & Hstate & Hf & Hn & Hd)
             | (x & i & _ & _ & _ & Hd)]];
    simpl in Hd; rewrite Hd in Hr.
  - left. exact Hr.
  - simpl in Hr. apply elem_of_app in Hr as [Hr | Hr]; [left; exact Hr |].
    apply list_elem_of_singleton in Hr. subst r. right. simpl.
    unfold get_context in Hstate.
    destruct (storage st !! user_id) as [ctx |] eqn:Ectx;
      simpl in Hstate, Hn; [| discriminate].
    destruct (Hok user_id ctx Ectx Hstate) as (m & Hm & Hne & Hlen).
    assert (m = n) as -> by congruence. auto.
  - apply delete_person_rows in Hr as [Hr _]. left. exact Hr.
Qed.

Lemma handle_adds_only_checked_rows_witness :
  let len := fun s => Z.of_nat (String.length s) in
  let st := mkbot (mkdb [] 0) ∅
              {[ 7 := mkfsm (Some waiting_for_date) (Some "Ann"%string) ]} [] in
  let r := Row.mk 1 "Ann"%string (mkdate 1990 3 15) 7 in
  r ∈ rows (db st) \/
  (Row.user_id r = 7 /\
   Row.name r <> EmptyString /\ 2 <= len (Row.name r) /\
   date_ltb (mkdate 2024 3 14) (Row.birthday_date r) = false /\
   Row.id r = autoincrement (db st) + 1).
Proof.
  apply (handle_adds_only_checked_rows (fun s => s)
           (fun s => Z.of_nat (String.length s))
           (fun _ => Some (mkdate 1990 3 15)) (mkdate 2024 3 14) 7
           (Message PlainText "15.03.1990"%string)).
  - intros u ctx Hctx Hstate. destruct (decide (u = 7)) as [-> | Hne].
    + simpl in Hctx. rewrite lookup_singleton_eq in Hctx.
      injection Hctx as <-. exists "Ann"%string. simpl.
      split; [reflexivity |]. split; [discriminate | lia].
    + simpl in Hctx. rewrite lookup_singleton_ne in Hctx by congruence.
      discriminate.
  - simpl. unfold get_context. simpl. rewrite lookup_singleton_eq. simpl.
    unfold process_date. simpl. rewrite lookup_singleton_eq. simpl.
    apply list_elem_of_here.
Defined.

Lemma process_name_contract_witness :
  let strip := fun s : string => s in
  let len := fun s => Z.of_nat (String.length s) in
  let st := mkbot (mkdb [] 0) ∅ {[ 7 := mkfsm (Some waiting_for_name) None ]} [] in
  let st' := (process_name strip len 7 "Ann"%string st).1 in
  let answer := (process_name strip len 7 "Ann"%string st).2 in
  db st' = db st /\
  ("Ann"%string = EmptyString \/ len "Ann"%string < 2 ->
   storage st' = storage st /\ answer = Some ScreenNameTooShort) /\
  ("Ann"%string <> EmptyString /\ 2 <= len "Ann"%string ->
   get_context 7 st' =
     mkfsm (Some waiting_for_date) (Some "Ann"%string) /\
   answer = Some (ScreenAskDate "Ann"%string)).
Proof.
  exact (process_name_contract (fun s => s)
           (fun s => Z.of_nat (String.length s)) 7 "Ann"%string
           (mkbot (mkdb [] 0) ∅
              {[ 7 := mkfsm (Some waiting_for_name) None ]} [])).
Defined.

(** X22: the whole dialog, for a sender whose identifier can be bound:
    the add button, then a name that passes the check, then a date that
    parses, is not after the current date and for which the day count
    returns, puts exactly one row into the table, for the sender, with
    the stripped name and the parsed date; the dialog is over, and the
    confirmation carries the age and the day count of the date engine. *)
Theorem add_person_dialog (strip : string -> string) (len : string -> Z)
    (strptime_dmy : string -> option date)
    today user_id name_text date_text st birthday_date days_until :
  fits_int64 user_id = true ->
  strip name_text <> EmptyString -> 2 <= len (strip name_text) ->
  strptime_dmy date_text = Some birthday_date ->
  date_ltb today birthday_date = false ->
  days_until_birthday birthday_date today = Some days_until ->
  let step := handle strip len strptime_dmy today user_id in
  let st1 := (step (Callback CallbackAddPerson) st).1 in
  let st2 := (step (Message PlainText name_text) st1).1 in
  let st3 := (step (Message PlainText date_text) st2).1 in
  rows (db st3) =
    rows (db st) ++
    [Row.mk (autoincrement (db st) + 1) (strip name_text) birthday_date
       user_id] /\
  get_context user_id st3 = mkfsm None None /\
  answers st3 =
    answers st ++
    [(user_id,
      AnswerAdded (Some (strip name_text)) birthday_date
        (calculate_age birthday_date today) days_until)].
Proof.
  intros Hfit Hne Hlen Hp Hf Hd step st1 st2 st3.
  assert (fsm_state (get_context user_id st1) = Some waiting_for_name) as E1.
  { subst st1 step. simpl. unfold get_context. simpl.
    rewrite lookup_insert_eq. reflexivity. }
  assert (db st1 = db st /\ answers st1 = answers st) as [Hdb1 Hans1]
      by (subst st1 step; simpl; auto).
  assert (st2 =
          mkbot (db st1) ({[user_id]} ∪ active_users st1)
            (<[user_id := mkfsm (Some waiting_for_date)
                            (Some (strip name_text))]> (storage st1))
            (answers st1)) as E2.
  { subst st2 step. simpl. rewrite E1.
    destruct (process_name_cases strip len user_id name_text st1)
      as [[Hbad _] | [_ ->]]; [| reflexivity].
    destruct Hbad; [contradiction | lia]. }
  assert (fsm_state (get_context user_id st2) = Some waiting_for_date) as E3.
  { rewrite E2. unfold get_context. simpl. rewrite lookup_insert_eq.
    reflexivity. }
  assert (storage st2 !! user_id ≫= fsm_name = Some (strip name_text)) as E4.
  { rewrite E2. simpl. rewrite lookup_insert_eq. reflexivity. }
  assert (db st2 = db st /\ answers st2 = answers st) as [Hdb2 Hans2]
      by (rewrite E2; simpl; auto).
  clearbody st2. clear E2. clearbody st1.
  subst st3 step. simpl. rewrite E3. simpl.
  unfold process_date. simpl. rewrite Hp, Hf, E4. simpl.
  rewrite Hfit. simpl. rewrite Hd. simpl. rewrite Hdb2, Hans2.
  split; [reflexivity |]. split; [| reflexivity].
  unfold get_context. simpl. rewrite lookup_insert_eq. reflexivity.
Qed.

Lemma add_person_dialog_witness :
  let strip := fun s : string => s in
  let len := fun s => Z.of_nat (String.length s) in
  let st := mkbot (mkdb [] 0) ∅ ∅ [] in
  let step := handle strip len (fun _ => Some (mkdate 1990 3 15))
                (mkdate 2024 3 14) 7 in
  let st1 := (step (Callback CallbackAddPerson) st).1 in
  let st2 := (step (Message PlainText "Ann"%string) st1).1 in
  let st3 := (step (Message PlainText "15.03.1990"%string) st2).1 in
  rows (db st3) =
    rows (db st) ++
    [Row.mk (autoincrement (db st) + 1) "Ann"%string (mkdate 1990 3 15) 7] /\
  get_context 7 st3 = mkfsm None None /\
  answers st3 =
    answers st ++
    [(7, AnswerAdded (Some "Ann"%string) (mkdate 1990 3 15)
           (calculate_age (mkdate 1990 3 15) (mkdate 2024 3 14)) 1)].
Proof.
  apply (add_person_dialog (fun s => s)
           (fun s => Z.of_nat (String.length s))
           (fun _ => Some (mkdate 1990 3 15)) (mkdate 2024 3 14) 7
           "Ann"%string "15.03.1990"%string (mkbot (mkdb [] 0) ∅ ∅ [])
           (mkdate 1990 3 15) 1);
    try reflexivity.
  - discriminate.
  - simpl. lia.
Defined.

(** X23: with distinct ids in the table, no update from a user with a
    non-zero identifier changes the rows of another owner: whatever the
    update is, the rows every other owner holds are the same before and
    after. *)
Theorem handle_leaves_other_owners (strip : string -> string)
    (len : string -> Z) (strptime_dmy : string -> option date)
    today user_id e st other :
  NoDup (Row.id <$> rows (db st)) ->
  user_id <> 0 -> other <> user_id ->
  rows_of other (db (handle strip len strptime_dmy today user_id e st).1) =
  rows_of other (db st).
Proof.
  intros Hnd H0 Hne. unfold rows_of.
  destruct (handle_db_cases strip len strptime_dmy today user_id e st)
    as [Hd | [(n & bd & text & _ & _ & _ & _ & Hd)
             | (r & i & _ & Hr & Hid & Hd)]];
    simpl in Hd; rewrite Hd.
  - reflexivity.
  - simpl. rewrite filter_app, filter_cons_False by (simpl; congruence).
    rewrite filter_nil, app_nil_r. reflexivity.
  - simpl. rewrite select_birthdays_owner in Hr by exact H0.
    apply elem_of_order_by_name, list_elem_of_filter in Hr as [Hu Hr].
    unfold delete_person. destruct (fits_int64 i); [| reflexivity]. simpl.
    apply filter_filter_elem. intros x Hx Hox Hxi.
    assert (x = r) as -> by (apply (rows_same_id _ _ _ Hnd Hx Hr); congruence).
    congruence.
Qed.

Lemma handle_leaves_other_owners_witness :
  rows_of 7
    (db (handle (fun s => s) (fun s => Z.of_nat (String.length s))
           (fun _ => None) (mkdate 2024 3 14) 9
           (Callback (CallbackDelete 1))
           (mkbot two_people_table ∅ ∅ [])).1) =
  rows_of 7 (db (mkbot two_people_table ∅ ∅ [])).
Proof.
  apply (handle_leaves_other_owners (fun s => s)
           (fun s => Z.of_nat (String.length s)) (fun _ => None)
           (mkdate 2024 3 14) 9 (Callback (CallbackDelete 1))
           (mkbot two_people_table ∅ ∅ []) 7).
  - simpl. apply NoDup_cons. split; [| apply NoDup_singleton].
    rewrite list_elem_of_singleton. discriminate.
  - discriminate.
  - discriminate.
Defined.

(** X24: a user who confirms the deletion of a record of their own, on a
    day the listing returns, gets it deleted: with distinct ids, the id of
    the record being one SQLite can hold, the row is gone, every other row
    is still there, and the answer names the deleted person. *)
Theorem confirm_delete_own_record today user_id st r :
  NoDup (Row.id <$> rows (db st)) ->
  r ∈ rows (db st) -> fits_int64 (Row.id r) = true ->
  Row.user_id r = user_id ->
  is_Some (get_all_people (db st) (Some user_id) today) ->
  let result := callback_confirm_delete today user_id (Row.id r) st in
  (r ∉ rows (db result.1)) /\
  (forall x, x ∈ rows (db st) -> x <> r -> x ∈ rows (db result.1)) /\
  result.2 = Some (ScreenDeleted (Row.name r)).
Proof.
  intros Hnd Hr Hfit Hu [people Hall] result. subst result.
  unfold callback_confirm_delete, delete_person. rewrite Hall, Hfit.
  assert (r ∈ select_birthdays (db st) (Some user_id)) as Hsel.
  { apply elem_of_select_birthdays. split; [exact Hr |]. intros _.
    congruence. }
  destruct (get_all_people_person _ _ _ _ r Hall Hsel) as (p & Hp & Hrow).
  pose proof (person_of_row_fields _ _ _ Hrow) as (Hid & _).
  destruct (head (filter (fun p => Person.id p = Row.id r) people))
    as [person |] eqn:Eh.
  - destruct (found_person_row _ _ _ _ _ _ Hall Eh) as (x & Hx & Hxi & Hxn).
    apply elem_of_select_birthdays in Hx as [Hx _].
    assert (x = r) as -> by (apply (rows_same_id _ _ _ Hnd Hx Hr); exact Hxi).
    simpl. split; [| split].
    + intros Hin. apply list_elem_of_filter in Hin as [Hne _].
      apply Hne. reflexivity.
    + intros y Hy Hne. apply list_elem_of_filter. split; [| exact Hy].
      intros Heq. apply Hne. apply (rows_same_id _ _ _ Hnd Hy Hr Heq).
    + congruence.
  - exfalso. apply head_None in Eh.
    assert (p ∈ filter (fun p => Person.id p = Row.id r) people) as Hin
        by (apply list_elem_of_filter; auto).
    rewrite Eh in Hin. inversion Hin.
Qed.

Lemma confirm_delete_own_record_witness :
  let st := mkbot two_people_table ∅ ∅ [] in
  let r := Row.mk 1 "Ann"%string (mkdate 1990 3 15) 7 in
  let result := callback_confirm_delete (mkdate 2024 3 14) 7 (Row.id r) st in
  (r ∉ rows (db result.1)) /\
  (forall x, x ∈ rows (db st) -> x <> r -> x ∈ rows (db result.1)) /\
  result.2 = Some (ScreenDeleted (Row.name r)).
Proof.
  apply (confirm_delete_own_record (mkdate 2024 3 14) 7
           (mkbot two_people_table ∅ ∅ [])
           (Row.mk 1 "Ann"%string (mkdate 1990 3 15) 7)).
  - simpl. apply NoDup_cons. split; [| apply NoDup_singleton].
    rewrite list_elem_of_singleton. discriminate.
  - apply list_elem_of_here.
  - reflexivity.
  - reflexivity.
  - eexists. vm_compute. reflexivity.
Defined.

(** X25: a user with a non-zero identifier who confirms the deletion of
    an id that is not among their own records deletes nothing: the state
    is as it was, and when the listing returns the answer is the error
    text. *)
Theorem confirm_delete_foreign_record today user_id person_id st :
  user_id <> 0 ->
  (forall r, r ∈ rows (db st) -> Row.id r = person_id ->
             Row.user_id r <> user_id) ->
  let result := callback_confirm_delete today user_id person_id st in
  result.1 = st /\
  (is_Some (get_all_people (db st) (Some user_id) today) ->
   result.2 = Some ScreenDeleteError).
Proof.
  intros H0 Hforeign result. subst result. unfold callback_confirm_delete.
  destruct (get_all_people (db st) (Some user_id) today) as [people |] eqn:E.
  - destruct (head (filter (fun p => Person.id p = person_id) people))
      as [person |] eqn:Eh; [| auto].
    exfalso.
    destruct (found_person_row _ _ _ _ _ _ E Eh) as (r & Hr & Hid & _).
    rewrite select_birthdays_owner in Hr by exact H0.
    apply elem_of_order_by_name, list_elem_of_filter in Hr as [Hu Hr].
    exact (Hforeign r Hr Hid Hu).
  - split; [reflexivity |]. intros [x Hx]. discriminate.
Qed.

Lemma confirm_delete_foreign_record_witness :
  let st := mkbot two_people_table ∅ ∅ [] in
  let result := callback_confirm_delete (mkdate 2024 3 14) 9 1 st in
  result.1 = st /\
  (is_Some (get_all_people (db st) (Some 9) (mkdate 2024 3 14)) ->
   result.2 = Some ScreenDeleteError).
Proof.
  apply (confirm_delete_foreign_record (mkdate 2024 3 14) 9 1
           (mkbot two_people_table ∅ ∅ [])).
  - discriminate.
  - intros r Hr _. simpl in Hr.
    rewrite !elem_of_cons, elem_of_nil in Hr.
    destruct Hr as [-> | [-> | []]]; discriminate.
Defined.

(** X26: the reachability set after an update is the set before it, with
    the sender added exactly when the handler is one of those that run
    [active_users.add]: every message handler and the handlers of the
    add, list and delete buttons add the sender; the handlers of a
    confirmed deletion, of the cancel button and of the help button leave
    the set as it is.  No handler takes anyone out. *)
Theorem handle_only_adds_sender (strip : string -> string)
    (len : string -> Z) (strptime_dmy : string -> option date)
    today user_id e st :
  let st' := (handle strip len strptime_dmy today user_id e st).1 in
  active_users st' =
  (if marks_sender e then {[user_id]} ∪ active_users st
   else active_users st) /\
  (active_users st ⊆ active_users st').
Proof.
  intros st'.
  assert (active_users st' =
          if marks_sender e then {[user_id]} ∪ active_users st
          else active_users st) as Heq.
  { subst st'. destruct e as [kind text | data]; simpl.
    - destruct kind; simpl; auto.
      destruct (fsm_state (get_context user_id st)) as [[|] |]; simpl; auto.
      + destruct (process_name_cases strip len user_id text st)
          as [[_ ->] | [_ ->]]; reflexivity.
      + apply process_date_active.
    - destruct data; simpl; auto.
      + unfold callback_show_list.
        destruct (get_all_people _ _ _) as [[| ? ?] |]; reflexivity.
      + unfold callback_delete_person.
        destruct (get_all_people _ _ _) as [[| ? ?] |]; reflexivity.
      + unfold callback_confirm_delete.
        destruct (get_all_people _ _ _) as [people |]; simpl; auto.
        destruct (head _); simpl; auto.
        destruct (delete_person _ _) as [db' [|]]; reflexivity. }
  split; [exact Heq |]. rewrite Heq.
  destruct (marks_sender e); [apply union_subseteq_r | reflexivity].
Qed.

(** X27: an update from one user leaves the dialog state of every other
    user as it was. *)
Theorem handle_leaves_other_dialogs (strip : string -> string)
    (len : string -> Z) (strptime_dmy : string -> option date)
    today user_id e st other :
  other <> user_id ->
  storage (handle strip len strptime_dmy today user_id e st).1 !! other =
  storage st !! other.
Proof.
  intros Hne.
  destruct (handle_storage_cases strip len strptime_dmy today user_id e st)
    as [Hs | [(c & Hs & _) | (n & Hs & _)]]; simpl in Hs; rewrite Hs.
  - reflexivity.
  - apply lookup_insert_ne. congruence.
  - apply lookup_insert_ne. congruence.
Qed.

Lemma handle_leaves_other_dialogs_witness :
  storage
    (handle (fun s => s) (fun s => Z.of_nat (String.length s))
       (fun _ => None) (mkdate 2024 3 14) 7
       (Callback CallbackAddPerson)
       (mkbot (mkdb [] 0) ∅
          {[ 9 := mkfsm (Some waiting_for_date) (Some "Eve"%string) ]} [])).1
    !! 9 =
  storage
    (mkbot (mkdb [] 0) ∅
       {[ 9 := mkfsm (Some waiting_for_date) (Some "Eve"%string) ]} [])
    !! 9.
Proof.
  apply (handle_leaves_other_dialogs (fun s => s)
           (fun s => Z.of_nat (String.length s)) (fun _ => None)
           (mkdate 2024 3 14) 7 (Callback CallbackAddPerson)).
  discriminate.
Defined.

(** X28: a pass run on the state a text message from a user was just
    handled into attempts, for that user, every person of theirs the
    fetch returns (those whose birthday is the day after the pass; none
    when the fetch raises): each of them is in the log, which is the
    record of the calls of [send_message] made from the set the handler
    left. *)
Theorem message_then_pass (strip : string -> string) (len : string -> Z)
    (strptime_dmy : string -> option date) (World : Type)
    (send_message : World -> Z -> reminder -> World * bool)
    today user_id kind text st (w : World) :
  let st' :=
    (handle strip len strptime_dmy today user_id (Message kind text) st).1 in
  let s :=
    send_birthday_reminders_tick send_message (db st') today
      (active_users st') w in
  attempted_for user_id (ts_log s) = due_for user_id (db st') today /\
  (forall people p,
     get_people_with_birthday_in_days (db st') 1 today = Some people ->
     p ∈ people -> Person.user_id p = user_id ->
     exists ok, (user_id, p, ok) ∈ ts_log s) /\
  pass_trace send_message (active_users st') w (ts_log s) (ts_active s)
    (ts_world s).
Proof.
  intros st' s.
  assert (attempted_for user_id (ts_log s) = due_for user_id (db st') today)
    as Heq.
  { destruct (tick_total_summary World send_message (db st') today
                (active_users st') w) as [Hatt _]. fold s in Hatt.
    rewrite Hatt. apply decide_True.
    destruct (handle_active_cases strip len strptime_dmy today user_id
                (Message kind text) st) as [H | [_ [data Hd]]];
      [| discriminate].
    fold st' in H. rewrite H. apply elem_of_union_l, elem_of_singleton.
    reflexivity. }
  split; [exact Heq |]. split; [| apply tick_pass_trace].
  intros people p Hfetch Hp Hu. apply elem_of_attempted_for.
  rewrite Heq. unfold due_for. rewrite Hfetch.
  apply list_elem_of_filter. auto.
Qed.

Lemma message_then_pass_witness :
  let st' :=
    (handle (fun s => s) (fun s => Z.of_nat (String.length s))
       (fun _ => None) (mkdate 2024 3 14) 7 (Message CommandStart "/start"%string)
       (mkbot two_people_table ∅ ∅ [])).1 in
  let s :=
    send_birthday_reminders_tick always_delivers (db st') (mkdate 2024 3 14)
      (active_users st') tt in
  attempted_for 7 (ts_log s) = due_for 7 (db st') (mkdate 2024 3 14) /\
  (forall people p,
     get_people_with_birthday_in_days (db st') 1 (mkdate 2024 3 14) =
       Some people ->
     p ∈ people -> Person.user_id p = 7 ->
     exists ok, (7, p, ok) ∈ ts_log s) /\
  pass_trace always_delivers (active_users st') tt (ts_log s) (ts_active s)
    (ts_world s).
Proof.
  exact (message_then_pass (fun s => s)
           (fun s => Z.of_nat (String.length s)) (fun _ => None) unit
           always_delivers (mkdate 2024 3 14) 7 CommandStart "/start"%string
           (mkbot two_people_table ∅ ∅ []) tt).
Defined.
